(** * Speech-Emotion-Recognition: the upload validator, the mock classifier,
      the history ledger and the microphone recorder

    A shallow embedding of the logic of [AudioUpload], [App] and
    [AudioRecorder].  React state and refs are record fields threaded
    through each handler; an [async] handler is cut at its [await] into the
    part that runs before and the part that runs when the promise settles;
    what the browser answers (the media event of the probe element, the
    outcome of [getUserMedia], the values of [Math.random()], the clock) is
    an argument of the handler that receives it.

    Numbers.  [audio.duration] is only ever compared, so it is kept as the
    IEEE binary64 value the browser reports ([float], with its infinities
    and NaN).  The confidences of the mock classifier are computed from
    [Math.random()]; they are modelled over the rationals [Q], where the
    arithmetic [65 + r * 30] and [r * (100 - p)] is exact. *)

From Stdlib Require Import Floats ZArith QArith Qround Lqa Lia.
From Stdlib Require Import List String Ascii Bool DecimalString.
From Stdlib Require Import Sorting.Permutation Sorting.Sorted.
Import ListNotations.

Set Implicit Arguments.

(* ------------------------------------------------------------------ *)
(** ** Browser values *)

(** A [Blob] / [File] is modelled by the properties the components read:
    the byte payload itself is never inspected, it is only handed to the
    browser (decoder, player). *)
Module Blob.
Record t := { size : Z; type : string }.
End Blob.

Module File.
Record t := { name : string; type : string; size : Z }.
End File.

(** [URL.createObjectURL] / [URL.revokeObjectURL]: object URLs are numbered
    in order of creation, the registry keeps the ones not yet revoked. *)
Module URL.
Record registry := { next : nat; live : list nat }.

Definition empty : registry := {| next := 0; live := [] |}.

Definition createObjectURL (r : registry) : nat * registry :=
  (next r, {| next := S (next r); live := next r :: live r |}).

Definition revokeObjectURL (url : nat) (r : registry) : registry :=
  {| next := next r; live := filter (fun u => negb (Nat.eqb u url)) (live r) |}.
End URL.

(** What the probe [Audio] element fires after [audio.src = url].  When it
    fires neither event the promise of [validateFile] never settles and the
    function does not return; that run has no outcome to model. *)
Inductive MediaEvent :=
| loadedmetadata (duration : float)
| error_event.

(* ------------------------------------------------------------------ *)
(** ** A state monad for the handlers *)

Definition M (S A : Type) : Type := S -> A * S.

Definition ret {S A} (a : A) : M S A := fun s => (a, s).

Definition bind {S A B} (m : M S A) (k : A -> M S B) : M S B :=
  fun s => let (a, s') := m s in k a s'.

Definition modify {S} (f : S -> S) : M S unit := fun s => (tt, f s).

Declare Scope monad_scope.
Delimit Scope monad_scope with monad.
Notation "x <- m ;; k" := (bind m (fun x => k))
  (at level 61, m at next level, right associativity) : monad_scope.
Notation "m ;; k" := (bind m (fun _ => k))
  (at level 61, right associativity) : monad_scope.

(* ------------------------------------------------------------------ *)
(** ** AudioUpload *)

Module AudioUpload.

Local Open Scope string_scope.

(** The spec's error taxonomy for the validator, and the message the
    component shows for each. *)
Inductive ValidationError :=
| UnsupportedFormat | FileTooLarge | DecodeFailed | TooLong | TooShort.

Definition message (e : ValidationError) : string :=
  match e with
  | UnsupportedFormat => "Unsupported file format. Please upload WAV, MP3, or FLAC files."
  | FileTooLarge => "File is too large. Maximum size is 50MB."
  | TooLong => "Audio is too long. Maximum duration is 5 minutes."
  | TooShort => "Audio is too short. Minimum duration is 0.5 seconds."
  | DecodeFailed => "Failed to load audio file. Please try another file."
  end.

Definition ACCEPTED_FORMATS : list string :=
  ["audio/wav"; "audio/mpeg"; "audio/mp3"; "audio/flac"; "audio/x-flac"].
Definition MAX_FILE_SIZE : Z := 50 * 1024 * 1024.
Definition MAX_DURATION : float := 300%float.

(** [Array.prototype.includes] on strings. *)
Definition includes (l : list string) (s : string) : bool :=
  existsb (String.eqb s) l.

(** [file.name.match(/\.(wav|mp3|flac)$/i)]: the name ends, up to ASCII
    case, in one of the three extensions. *)
Definition lowerChar (c : ascii) : ascii :=
  let n := nat_of_ascii c in
  if (65 <=? n)%nat && (n <=? 90)%nat then ascii_of_nat (n + 32) else c.

Fixpoint toLowerCase (s : string) : string :=
  match s with
  | EmptyString => EmptyString
  | String c s' => String (lowerChar c) (toLowerCase s')
  end.

Definition endsWith (s suffix : string) : bool :=
  let n := String.length s in
  let m := String.length suffix in
  (m <=? n)%nat && String.eqb (substring (n - m) m s) suffix.

Definition matchesExtension (fileName : string) : bool :=
  existsb (fun ext => endsWith (toLowerCase fileName) ("." ++ ext))
          ["wav"; "mp3"; "flac"].

(** Component state ([useState]). *)
Record State := {
  isDragging : bool;
  selectedFile : option File.t;
  error : option string
}.

Definition initial : State :=
  {| isDragging := false; selectedFile := None; error := None |}.

(** The component, the URL registry it allocates from, and the state of
    the parent that [onAudioSelected] acts on. *)
Record World (P : Type) := {
  ui : State;
  urls : URL.registry;
  parent : P
}.

Section Handlers.
Variable P : Type.
Variable onAudioSelected : File.t -> nat -> P -> P.

Local Open Scope monad_scope.

Definition setError (e : option string) : M (World P) unit :=
  modify (fun w =>
    {| ui := {| isDragging := isDragging (ui w);
                selectedFile := selectedFile (ui w);
                error := e |};
       urls := urls w; parent := parent w |}).

Definition setSelectedFile (f : option File.t) : M (World P) unit :=
  modify (fun w =>
    {| ui := {| isDragging := isDragging (ui w);
                selectedFile := f;
                error := error (ui w) |};
       urls := urls w; parent := parent w |}).

Definition createObjectURL : M (World P) nat :=
  fun w => let (u, r) := URL.createObjectURL (urls w) in
           (u, {| ui := ui w; urls := r; parent := parent w |}).

Definition revokeObjectURL (u : nat) : M (World P) unit :=
  modify (fun w =>
    {| ui := ui w; urls := URL.revokeObjectURL u (urls w); parent := parent w |}).

Definition notifyParent (file : File.t) (url : nat) : M (World P) unit :=
  modify (fun w =>
    {| ui := ui w; urls := urls w;
       parent := onAudioSelected file url (parent w) |}).

(** [validateFile]; [ev] is the event of the probe element.  A
    [reject()] inside the promise is caught and becomes [return false]. *)
Definition validateFile (file : File.t) (ev : MediaEvent) : M (World P) bool :=
  setError None ;;
  if negb (includes ACCEPTED_FORMATS (File.type file))
     && negb (matchesExtension (File.name file))
  then
    setError (Some "Unsupported file format. Please upload WAV, MP3, or FLAC files.") ;;
    ret false
  else if (MAX_FILE_SIZE <? File.size file)%Z then
    setError (Some "File is too large. Maximum size is 50MB.") ;;
    ret false
  else
    url <- createObjectURL ;;
    match ev with
    | loadedmetadata duration =>
        if (MAX_DURATION <? duration)%float then
          setError (Some "Audio is too long. Maximum duration is 5 minutes.") ;;
          revokeObjectURL url ;;
          ret false
        else if (duration <? 0.5)%float then
          setError (Some "Audio is too short. Minimum duration is 0.5 seconds.") ;;
          revokeObjectURL url ;;
          ret false
        else
          revokeObjectURL url ;;
          ret true
    | error_event =>
        setError (Some "Failed to load audio file. Please try another file.") ;;
        ret false
    end.

Definition handleFile (file : File.t) (ev : MediaEvent) : M (World P) unit :=
  isValid <- validateFile file ev ;;
  if isValid then
    setSelectedFile (Some file) ;;
    url <- createObjectURL ;;
    notifyParent file url
  else ret tt.

Definition handleClear : M (World P) unit :=
  setSelectedFile None ;; setError None.

End Handlers.

(** The format check of [validateFile] as a predicate on the file. *)
Definition formatAccepted (file : File.t) : bool :=
  includes ACCEPTED_FORMATS (File.type file) || matchesExtension (File.name file).

End AudioUpload.

(* ------------------------------------------------------------------ *)
(** ** App: the view orchestrator, the mock classifier, the history *)

(** An element of [EmotionResult.all], and the shape of
    [EmotionResult.primary]. *)
Module Score.
Record t := { emotion : string; confidence : Q }.
End Score.

Module EmotionPrediction.
Record t := {
  emotion : string;
  confidence : Q;
  timestamp : Z;
  audioName : option string
}.
End EmotionPrediction.

Module EmotionResult.
Record t := { primary : Score.t; all : list Score.t }.
End EmotionResult.

(** [Array.prototype.sort(compareFn)].  The sort of ECMAScript is stable;
    for a comparator that is a consistent order the sorted array is then
    determined, so any stable sort computes it.  This one inserts from the
    right: [x] moves behind [y] only when [compareFn(x, y) > 0]. *)
Section Sort.
Variable A : Type.
Variable compareFn : A -> A -> Q.

Fixpoint insertSorted (x : A) (l : list A) : list A :=
  match l with
  | [] => [x]
  | y :: l' =>
      if Qle_bool (compareFn x y) 0 then x :: l else y :: insertSorted x l'
  end.

Fixpoint sort (l : list A) : list A :=
  match l with
  | [] => []
  | x :: l' => insertSorted x (sort l')
  end.

(** "[x] may stand before [y]" for the comparator. *)
Definition mayPrecede (x y : A) : Prop := compareFn x y <= 0.
End Sort.

(** Non-increasing confidence. *)
Definition confidenceDesc (a b : Score.t) : Prop :=
  Score.confidence b <= Score.confidence a.

Module App.

Local Open Scope string_scope.

Inductive View := home | upload | record.

Record State := {
  darkMode : bool;
  view : View;
  audioFile : option File.t;
  audioUrl : option nat;
  isAnalyzing : bool;
  result : option EmotionResult.t;
  history : list EmotionPrediction.t
}.

Definition initial : State :=
  {| darkMode := false; view := home; audioFile := None; audioUrl := None;
     isAnalyzing := false; result := None; history := [] |}.

Definition handleAudioSelected (file : File.t) (url : nat) (st : State) : State :=
  {| darkMode := darkMode st; view := view st;
     audioFile := Some file; audioUrl := Some url;
     isAnalyzing := isAnalyzing st;
     result := None;
     history := history st |}.

Definition handleReset (st : State) : State :=
  {| darkMode := darkMode st; view := home;
     audioFile := None; audioUrl := None;
     isAnalyzing := isAnalyzing st;
     result := None;
     history := history st |}.

(** *** The mock prediction

    [random n] is the value of the [n]-th call of [Math.random()] made by
    one run of [handleAnalyze]: call 0 picks the primary emotion, call 1
    its confidence, calls 2.. the confidences of the others in the order
    [map] visits them. *)
Section Mock.
Variable random : nat -> Q.

Definition emotions : list string :=
  ["happy"; "sad"; "angry"; "fearful"; "neutral"; "surprised"; "disgusted"].

(** [Math.floor(Math.random() * emotions.length)] *)
Definition primaryIndex : Z :=
  Qfloor (random 0 * inject_Z (Z.of_nat (List.length emotions))).

(** [emotions[...]]; [Math.random()] lies in [0, 1), so the index is one of
    0..6 and the default is never taken. *)
Definition primaryEmotion : string :=
  nth (Z.to_nat primaryIndex) emotions "undefined".

Definition primaryConfidence : Q := 65 + random 1 * 30.

(** [.map(emotion => ({ emotion, confidence: Math.random() * (100 - primaryConfidence) }))],
    the [k]-th call of [Math.random()] serving the head of the list. *)
Fixpoint drawOthers (k : nat) (es : list string) : list Score.t :=
  match es with
  | [] => []
  | emotion :: rest =>
      {| Score.emotion := emotion;
         Score.confidence := random k * (100 - primaryConfidence) |}
      :: drawOthers (S k) rest
  end.

(** [(a, b) => b.confidence - a.confidence] *)
Definition byConfidenceDesc (a b : Score.t) : Q :=
  Score.confidence b - Score.confidence a.

Definition otherEmotions : list Score.t :=
  sort byConfidenceDesc
    (drawOthers 2
       (filter (fun e => negb (String.eqb e primaryEmotion)) emotions)).

Definition mockResult : EmotionResult.t :=
  {| EmotionResult.primary :=
       {| Score.emotion := primaryEmotion; Score.confidence := primaryConfidence |};
     EmotionResult.all :=
       sort byConfidenceDesc
         ({| Score.emotion := primaryEmotion; Score.confidence := primaryConfidence |}
          :: otherEmotions) |}.

(** The entries of the result before any sorting: the primary one, and
    one draw for every other label. *)
Definition primaryEntry : Score.t :=
  {| Score.emotion := primaryEmotion; Score.confidence := primaryConfidence |}.

Definition rawOthers : list Score.t :=
  drawOthers 2 (filter (fun e => negb (String.eqb e primaryEmotion)) emotions).
End Mock.

(** The updater passed to [setHistory]. *)
Definition addToHistory (entry : EmotionPrediction.t)
           (prev : list EmotionPrediction.t) : list EmotionPrediction.t :=
  entry :: firstn 9 prev.

(** *** handleAnalyze, cut at its [await]

    [handleAnalyze_start] runs up to the [await]; it returns the
    [audioFile] its closure holds when the call goes on to wait, and
    [None] when it returned at the guard. *)
Definition handleAnalyze_start (st : State) : option File.t * State :=
  match audioFile st with
  | None => (None, st)
  | Some file =>
      (Some file,
       {| darkMode := darkMode st; view := view st;
          audioFile := audioFile st; audioUrl := audioUrl st;
          isAnalyzing := true;
          result := None;
          history := history st |})
  end.

(** The rest of [handleAnalyze], run when the 2-second timer fires:
    [audioFile] is the file the closure holds, [now] is [new Date()]. *)
Definition handleAnalyze_resume (audioFile : File.t) (random : nat -> Q)
           (now : Z) (st : State) : State :=
  {| darkMode := darkMode st; view := view st;
     audioFile := App.audioFile st; audioUrl := audioUrl st;
     isAnalyzing := false;
     result := Some (mockResult random);
     history :=
       addToHistory
         {| EmotionPrediction.emotion := primaryEmotion random;
            EmotionPrediction.confidence := primaryConfidence random;
            EmotionPrediction.timestamp := now;
            EmotionPrediction.audioName := Some (File.name audioFile) |}
         (history st) |}.

(** Insert the entries of [entries] one after the other, first to last. *)
Definition recordAll (entries : list EmotionPrediction.t)
           (ledger : list EmotionPrediction.t) : list EmotionPrediction.t :=
  fold_left (fun prev entry => addToHistory entry prev) entries ledger.

(** *** The primary entry, in the words of the specification

    "the entry with maximum confidence (ties broken by vocabulary
    declaration order)": the entries are visited in the order of the
    vocabulary, and a later one replaces the best so far only when its
    confidence is strictly greater. *)
Definition inVocabularyOrder (entries : list Score.t) : list Score.t :=
  flat_map (fun label =>
              filter (fun e => String.eqb (Score.emotion e) label) entries)
           emotions.

Fixpoint maxByConfidence (entries : list Score.t) : option Score.t :=
  match entries with
  | [] => None
  | e :: rest =>
      match maxByConfidence rest with
      | None => Some e
      | Some m =>
          if Qle_bool (Score.confidence m) (Score.confidence e)
          then Some e else Some m
      end
  end.

Definition spec_primary (entries : list Score.t) : option Score.t :=
  maxByConfidence (inVocabularyOrder entries).

End App.

(* ------------------------------------------------------------------ *)
(** ** AudioRecorder *)

Module AudioRecorder.

Local Open Scope string_scope.

(** [MediaRecorder.state]; the component never pauses a recorder. *)
Inductive RecordingState := inactive | recording.

Module MediaRecorder.
Record t := { stream : nat; state : RecordingState }.
End MediaRecorder.

Definition MAX_RECORDING_TIME : Z := 300.

(** [useState] *)
Record State := {
  isRecording : bool;
  recordingTime : Z;
  audioBlob : option Blob.t;
  error : option string;
  permissionGranted : bool
}.

(** [useRef] *)
Record Refs := {
  mediaRecorderRef : option nat;
  chunksRef : list Blob.t;
  timerRef : option nat;
  streamRef : option nat
}.

(** The part of the browser the component acts on.

    - [liveStreams]: the [MediaStream]s handed out by [getUserMedia]
      whose tracks have not been stopped; streams are numbered from
      [nextStream].
    - [recorders]: every [MediaRecorder] constructed so far, a recorder
      being named by its position.
    - [stopQueue]: recorders whose [stop] event is queued.
    - [intervals]: the running [setInterval] timers.  The callback that
      [startRecording] installs calls the [stopRecording] of the render
      [startRecording] itself belongs to, and [stopRecording] reads the
      [isRecording] of its render; the timer is stored with that value.
      Ids start at 1, so [if (timerRef.current)] is a null check.
    - [pendingUserMedia]: the calls of [startRecording] waiting at
      [await getUserMedia], oldest first, each with the [isRecording] of
      its render. *)
Record Browser := {
  nextStream : nat;
  liveStreams : list nat;
  recorders : list MediaRecorder.t;
  stopQueue : list nat;
  nextTimer : nat;
  intervals : list (nat * bool);
  pendingUserMedia : list bool;
  urls : URL.registry
}.

Record World (P : Type) := {
  ui : State;
  refs : Refs;
  browser : Browser;
  parent : P
}.

Definition initialState : State :=
  {| isRecording := false; recordingTime := 0; audioBlob := None;
     error := None; permissionGranted := false |}.

Definition initialRefs : Refs :=
  {| mediaRecorderRef := None; chunksRef := []; timerRef := None; streamRef := None |}.

Definition freshBrowser : Browser :=
  {| nextStream := 0; liveStreams := []; recorders := []; stopQueue := [];
     nextTimer := 1; intervals := []; pendingUserMedia := [];
     urls := URL.empty |}.

Fixpoint updateAt {A} (i : nat) (f : A -> A) (l : list A) : list A :=
  match l, i with
  | [], _ => []
  | x :: l', O => f x :: l'
  | x :: l', S i' => x :: updateAt i' f l'
  end.

Fixpoint lookupInterval (id : nat) (l : list (nat * bool)) : option bool :=
  match l with
  | [] => None
  | (id', rendered) :: l' =>
      if Nat.eqb id' id then Some rendered else lookupInterval id l'
  end.

Section Handlers.
Variable P : Type.
Variable onAudioRecorded : File.t -> nat -> P -> P.

Local Open Scope monad_scope.

Definition gets {A} (f : World P -> A) : M (World P) A := fun w => (f w, w).

Definition withUi (f : State -> State) : M (World P) unit :=
  modify (fun w => {| ui := f (ui w); refs := refs w;
                      browser := browser w; parent := parent w |}).
Definition withRefs (f : Refs -> Refs) : M (World P) unit :=
  modify (fun w => {| ui := ui w; refs := f (refs w);
                      browser := browser w; parent := parent w |}).
Definition withBrowser (f : Browser -> Browser) : M (World P) unit :=
  modify (fun w => {| ui := ui w; refs := refs w;
                      browser := f (browser w); parent := parent w |}).

(** State setters. *)
Definition setIsRecording (b : bool) :=
  withUi (fun s => {| isRecording := b; recordingTime := recordingTime s;
                      audioBlob := audioBlob s; error := error s;
                      permissionGranted := permissionGranted s |}).
Definition setRecordingTime (t : Z) :=
  withUi (fun s => {| isRecording := isRecording s; recordingTime := t;
                      audioBlob := audioBlob s; error := error s;
                      permissionGranted := permissionGranted s |}).
Definition setAudioBlob (b : option Blob.t) :=
  withUi (fun s => {| isRecording := isRecording s; recordingTime := recordingTime s;
                      audioBlob := b; error := error s;
                      permissionGranted := permissionGranted s |}).
Definition setError (e : option string) :=
  withUi (fun s => {| isRecording := isRecording s; recordingTime := recordingTime s;
                      audioBlob := audioBlob s; error := e;
                      permissionGranted := permissionGranted s |}).
Definition setPermissionGranted (b : bool) :=
  withUi (fun s => {| isRecording := isRecording s; recordingTime := recordingTime s;
                      audioBlob := audioBlob s; error := error s;
                      permissionGranted := b |}).

(** Assignments to [ref.current]. *)
Definition setMediaRecorderRef (r : option nat) :=
  withRefs (fun s => {| mediaRecorderRef := r; chunksRef := chunksRef s;
                        timerRef := timerRef s; streamRef := streamRef s |}).
Definition setChunksRef (c : list Blob.t) :=
  withRefs (fun s => {| mediaRecorderRef := mediaRecorderRef s; chunksRef := c;
                        timerRef := timerRef s; streamRef := streamRef s |}).
Definition setTimerRef (t : option nat) :=
  withRefs (fun s => {| mediaRecorderRef := mediaRecorderRef s; chunksRef := chunksRef s;
                        timerRef := t; streamRef := streamRef s |}).
Definition setStreamRef (t : option nat) :=
  withRefs (fun s => {| mediaRecorderRef := mediaRecorderRef s; chunksRef := chunksRef s;
                        timerRef := timerRef s; streamRef := t |}).

(** Browser operations. *)

(** [getUserMedia] resolving: a new stream with live tracks. *)
Definition acquireStream : M (World P) nat :=
  s <- gets (fun w => nextStream (browser w)) ;;
  withBrowser (fun b =>
    {| nextStream := S (nextStream b); liveStreams := nextStream b :: liveStreams b;
       recorders := recorders b; stopQueue := stopQueue b;
       nextTimer := nextTimer b; intervals := intervals b;
       pendingUserMedia := pendingUserMedia b; urls := urls b |}) ;;
  ret s.

(** [stream.getTracks().forEach(track => track.stop())]: the stream is no
    longer live.  What the browser then does to a recorder that is still
    recording this stream (it makes it inactive and queues its [stop]
    event) is not modelled: [stopTracks] only ends the stream. *)
Definition stopTracks (s : nat) : M (World P) unit :=
  withBrowser (fun b =>
    {| nextStream := nextStream b;
       liveStreams := filter (fun s' => negb (Nat.eqb s' s)) (liveStreams b);
       recorders := recorders b; stopQueue := stopQueue b;
       nextTimer := nextTimer b; intervals := intervals b;
       pendingUserMedia := pendingUserMedia b; urls := urls b |}).

Definition setRecorders (f : list MediaRecorder.t -> list MediaRecorder.t)
           (q : list nat -> list nat) : M (World P) unit :=
  withBrowser (fun b =>
    {| nextStream := nextStream b; liveStreams := liveStreams b;
       recorders := f (recorders b); stopQueue := q (stopQueue b);
       nextTimer := nextTimer b; intervals := intervals b;
       pendingUserMedia := pendingUserMedia b; urls := urls b |}).

(** [new MediaRecorder(stream, ...)] *)
Definition newMediaRecorder (s : nat) : M (World P) nat :=
  r <- gets (fun w => List.length (recorders (browser w))) ;;
  setRecorders
    (fun l => (l ++ [{| MediaRecorder.stream := s; MediaRecorder.state := inactive |}])%list)
    (fun q => q) ;;
  ret r.

(** [mediaRecorder.start(100)] *)
Definition recorderStart (r : nat) : M (World P) unit :=
  setRecorders
    (updateAt r (fun m => {| MediaRecorder.stream := MediaRecorder.stream m;
                             MediaRecorder.state := recording |}))
    (fun q => q).

(** [mediaRecorder.stop()]: an inactive recorder ignores it; a recording
    one becomes inactive and its [stop] event is queued. *)
Definition recorderStop (r : nat) : M (World P) unit :=
  l <- gets (fun w => recorders (browser w)) ;;
  match nth_error l r with
  | Some {| MediaRecorder.state := recording |} =>
      setRecorders
        (updateAt r (fun m => {| MediaRecorder.stream := MediaRecorder.stream m;
                                 MediaRecorder.state := inactive |}))
        (fun q => (q ++ [r])%list)
  | _ => ret tt
  end.

Definition setIntervals (n : nat -> nat) (f : list (nat * bool) -> list (nat * bool))
  : M (World P) unit :=
  withBrowser (fun b =>
    {| nextStream := nextStream b; liveStreams := liveStreams b;
       recorders := recorders b; stopQueue := stopQueue b;
       nextTimer := n (nextTimer b); intervals := f (intervals b);
       pendingUserMedia := pendingUserMedia b; urls := urls b |}).

(** [window.setInterval(callback, 1000)], [rendered] being the
    [isRecording] seen by the [stopRecording] the callback calls. *)
Definition setInterval (rendered : bool) : M (World P) nat :=
  t <- gets (fun w => nextTimer (browser w)) ;;
  setIntervals S (fun l => (t, rendered) :: l) ;;
  ret t.

Definition clearInterval (t : nat) : M (World P) unit :=
  setIntervals (fun n => n) (filter (fun e => negb (Nat.eqb (fst e) t))).

Definition setPendingUserMedia (f : list bool -> list bool) : M (World P) unit :=
  withBrowser (fun b =>
    {| nextStream := nextStream b; liveStreams := liveStreams b;
       recorders := recorders b; stopQueue := stopQueue b;
       nextTimer := nextTimer b; intervals := intervals b;
       pendingUserMedia := f (pendingUserMedia b); urls := urls b |}).

Definition createObjectURL : M (World P) nat :=
  fun w =>
    let b := browser w in
    let (u, r) := URL.createObjectURL (urls b) in
    (u, {| ui := ui w; refs := refs w;
           browser :=
             {| nextStream := nextStream b; liveStreams := liveStreams b;
                recorders := recorders b; stopQueue := stopQueue b;
                nextTimer := nextTimer b; intervals := intervals b;
                pendingUserMedia := pendingUserMedia b; urls := r |};
           parent := parent w |}).

Definition notifyParent (file : File.t) (url : nat) : M (World P) unit :=
  modify (fun w => {| ui := ui w; refs := refs w; browser := browser w;
                      parent := onAudioRecorded file url (parent w) |}).

(** *** The handlers of the component *)

(** [checkMicrophonePermission], run when its [getUserMedia] settles.
    The probe stream is stopped at once. *)
Definition checkMicrophonePermission (granted : bool) : M (World P) unit :=
  if granted then
    stream <- acquireStream ;;
    stopTracks stream ;;
    setPermissionGranted true ;;
    setError None
  else
    setPermissionGranted false ;;
    setError (Some "Microphone access denied. Please allow microphone access to record audio.").

(** [stopRecording] as defined by a render in which [isRecording] had
    the value [rendered]. *)
Definition stopRecording (rendered : bool) : M (World P) unit :=
  r <- gets (fun w => mediaRecorderRef (refs w)) ;;
  match r with
  | Some rec =>
      if rendered then
        recorderStop rec ;;
        setIsRecording false ;;
        t <- gets (fun w => timerRef (refs w)) ;;
        match t with
        | Some timer => clearInterval timer ;; setTimerRef None
        | None => ret tt
        end
      else ret tt
  | None => ret tt
  end.

(** [startRecording] up to [await navigator.mediaDevices.getUserMedia]. *)
Definition startRecording_start (rendered : bool) : M (World P) unit :=
  setError None ;;
  setChunksRef [] ;;
  setAudioBlob None ;;
  setPendingUserMedia (fun q => (q ++ [rendered])%list).

(** The rest of [startRecording], run when [getUserMedia] settles; a
    rejection lands in the [catch]. *)
Definition startRecording_resume (rendered : bool) (granted : bool)
  : M (World P) unit :=
  if granted then
    stream <- acquireStream ;;
    setStreamRef (Some stream) ;;
    mediaRecorder <- newMediaRecorder stream ;;
    setMediaRecorderRef (Some mediaRecorder) ;;
    recorderStart mediaRecorder ;;
    setIsRecording true ;;
    setRecordingTime 0 ;;
    timer <- setInterval rendered ;;
    setTimerRef (Some timer)
  else
    setError (Some "Failed to start recording. Please check your microphone permissions.").

(** [mediaRecorder.ondataavailable] *)
Definition ondataavailable (data : Blob.t) : M (World P) unit :=
  if (0 <? Blob.size data)%Z then
    chunks <- gets (fun w => chunksRef (refs w)) ;;
    setChunksRef (chunks ++ [data])%list
  else ret tt.

(** [new Blob(chunksRef.current, { type: 'audio/webm' })] *)
Definition newBlob (chunks : list Blob.t) : Blob.t :=
  {| Blob.size := fold_right (fun c n => (Blob.size c + n)%Z) 0%Z chunks;
     Blob.type := "audio/webm" |}.

(** [mediaRecorder.onstop]; [now] is [Date.now()]. *)
Definition onstop (now : Z) : M (World P) unit :=
  chunks <- gets (fun w => chunksRef (refs w)) ;;
  let blob := newBlob chunks in
  setAudioBlob (Some blob) ;;
  let file :=
    {| File.name := "recording-" ++ NilZero.string_of_int (Z.to_int now) ++ ".webm";
       File.type := "audio/webm";
       File.size := Blob.size blob |} in
  url <- createObjectURL ;;
  notifyParent file url ;;
  s <- gets (fun w => streamRef (refs w)) ;;
  match s with
  | Some stream => stopTracks stream
  | None => ret tt
  end.

(** The callback given to [setInterval], for a timer stored with
    [rendered]: the updater of [setRecordingTime]. *)
Definition intervalCallback (rendered : bool) : M (World P) unit :=
  prev <- gets (fun w => recordingTime (ui w)) ;;
  if (MAX_RECORDING_TIME <=? prev)%Z then
    stopRecording rendered ;;
    setRecordingTime prev
  else
    setRecordingTime (prev + 1).

Definition handleClear : M (World P) unit :=
  setAudioBlob None ;; setRecordingTime 0.

(** The cleanup of the mount effect; its [stopRecording] is the one of
    the first render, where [isRecording] is [false]. *)
Definition cleanup : M (World P) unit :=
  stopRecording false ;;
  s <- gets (fun w => streamRef (refs w)) ;;
  match s with
  | Some stream => stopTracks stream
  | None => ret tt
  end.

(** *** Events

    What the user and the browser can make happen, and the handler each
    runs.  The record button is rendered only while [audioBlob] is
    null, is disabled until permission is granted, and carries
    [isRecording ? stopRecording : startRecording] of the current
    render. *)
Inductive Event :=
| permission_settles (granted : bool)
| click_record
| getUserMedia_settles (granted : bool)
| interval_fires (timer : nat)
| dataavailable (data : Blob.t)
| stop_fires (now : Z)
| click_record_again
| unmount.

Definition onClickRecord : M (World P) unit :=
  s <- gets (fun w => ui w) ;;
  match audioBlob s with
  | Some _ => ret tt
  | None =>
      if negb (permissionGranted s) then ret tt
      else if isRecording s then stopRecording true
      else startRecording_start false
  end.

Definition step (e : Event) : M (World P) unit :=
  match e with
  | permission_settles granted => checkMicrophonePermission granted
  | click_record => onClickRecord
  | getUserMedia_settles granted =>
      q <- gets (fun w => pendingUserMedia (browser w)) ;;
      match q with
      | [] => ret tt
      | rendered :: q' =>
          setPendingUserMedia (fun _ => q') ;;
          startRecording_resume rendered granted
      end
  | interval_fires timer =>
      l <- gets (fun w => intervals (browser w)) ;;
      match lookupInterval timer l with
      | Some rendered => intervalCallback rendered
      | None => ret tt
      end
  | dataavailable data => ondataavailable data
  | stop_fires now =>
      q <- gets (fun w => stopQueue (browser w)) ;;
      match q with
      | [] => ret tt
      | _ :: q' => setRecorders (fun l => l) (fun _ => q') ;; onstop now
      end
  | click_record_again =>
      s <- gets (fun w => ui w) ;;
      match audioBlob s with
      | Some _ => handleClear
      | None => ret tt
      end
  | unmount => cleanup
  end.

Fixpoint run (es : list Event) (w : World P) : World P :=
  match es with
  | [] => w
  | e :: es' => run es' (snd (step e w))
  end.

End Handlers.

(** The component once mounted, the permission probe not yet answered. *)
Definition mounted {P} (p : P) : World P :=
  {| ui := initialState; refs := initialRefs; browser := freshBrowser; parent := p |}.

End AudioRecorder.


From Stdlib Require Import DecimalZ DecimalPos.

(* ------------------------------------------------------------------ *)
(** ** The result view, the history panel, the recorder's clock *)

(** Number to string for an integer: [n.toString()] and [${n}].  Every
    digit is printed, as JavaScript does for an integer below 1e21 in
    absolute value; from 1e21 on it switches to exponent notation, which
    this does not follow. *)
Definition toString (n : Z) : string := NilZero.string_of_int (Z.to_int n).

(** [String.prototype.padStart(targetLength, padString)]: [fill n] yields
    the first [n] characters of [padString] repeated. *)
Fixpoint fill (n : nat) (padString rest : string) : string :=
  match n with
  | O => EmptyString
  | S n' =>
      match rest with
      | String c rest' => String c (fill n' padString rest')
      | EmptyString =>
          match padString with
          | String c rest' => String c (fill n' padString rest')
          | EmptyString => EmptyString
          end
      end
  end.

Definition padStart (targetLength : nat) (padString s : string) : string :=
  let len := String.length s in
  if (targetLength <=? len)%nat then s
  else match padString with
       | EmptyString => s
       | _ => (fill (targetLength - len) padString padString ++ s)%string
       end.

Module EmotionResults.

(** [result.all.slice(0, 3)] *)
Definition topThree (result : EmotionResult.t) : list Score.t :=
  firstn 3 (EmotionResult.all result).

End EmotionResults.

Module HistoryPanel.

Local Open Scope string_scope.

(** [formatTimeAgo]; [now] is [new Date().getTime()], [date] the
    [getTime()] of the entry, both in milliseconds. *)
Definition formatTimeAgo (now date : Z) : string :=
  let seconds := ((now - date) / 1000)%Z in
  if (seconds <? 60)%Z then "Just now"
  else if (seconds <? 3600)%Z then toString (seconds / 60) ++ "m ago"
  else if (seconds <? 86400)%Z then toString (seconds / 3600) ++ "h ago"
  else toString (seconds / 86400) ++ "d ago".

(** [item.audioName || 'Recording']: a missing or empty name is falsy. *)
Definition label (item : EmotionPrediction.t) : string :=
  match EmotionPrediction.audioName item with
  | Some (String c s) => String c s
  | _ => "Recording"
  end.

(** The rows of the panel; for an empty history the component returns
    [null] ([None]). *)
Definition rows (history : list EmotionPrediction.t)
  : option (list EmotionPrediction.t) :=
  match history with
  | [] => None
  | _ => Some (firstn 5 history)
  end.

End HistoryPanel.

Module RecorderClock.

Local Open Scope string_scope.

(** [formatTime] of [AudioRecorder]; [%] is the remainder that takes the
    sign of the dividend. *)
Definition formatTime (seconds : Z) : string :=
  let mins := (seconds / 60)%Z in
  let secs := Z.rem seconds 60 in
  toString mins ++ ":" ++ padStart 2 "0" (toString secs).

End RecorderClock.

(* ------------------------------------------------------------------ *)
(** ** AudioPlayer: the volume slider, the mute button, the waveform *)

Module AudioPlayer.

(** The [<audio>] element, as far as these handlers use it. *)
Module HTMLAudioElement.
Record t := { volume : float }.

(** [audio.volume = v]: a value outside [0, 1] (NaN included) throws, and
    the attribute keeps its value. *)
Definition setVolume (v : float) (audio : t) : option t :=
  if ((0 <=? v) && (v <=? 1))%float then Some {| volume := v |} else None.
End HTMLAudioElement.

Record State := {
  volume : float;
  isMuted : bool;
  waveformData : list Q
}.

Record World := {
  ui : State;
  audioRef : option HTMLAudioElement.t
}.

(** The component mounted: the state of its first render and an element
    at the default volume. *)
Definition mounted : World :=
  {| ui := {| volume := 1; isMuted := false; waveformData := [] |};
     audioRef := Some {| HTMLAudioElement.volume := 1 |} |}.

(** [generateWaveform]: [Array.from({ length: bars }, () => Math.random() * 0.7 + 0.3)],
    [random i] being the [i]-th value of [Math.random()]. *)
Definition generateWaveform (random : nat -> Q) (w : World) : World :=
  let bars := 50%nat in
  let data := map (fun i => random i * (7 # 10) + (3 # 10)) (seq 0 bars) in
  {| ui := {| volume := volume (ui w); isMuted := isMuted (ui w);
              waveformData := data |};
     audioRef := audioRef w |}.

(** [handleVolumeChange]; [vol] is [parseFloat(e.target.value)].  When the
    assignment to [audio.volume] throws, the rest of the handler does not
    run. *)
Definition handleVolumeChange (vol : float) (w : World) : World :=
  match audioRef w with
  | None => w
  | Some audio =>
      match HTMLAudioElement.setVolume vol audio with
      | None => w
      | Some audio' =>
          {| ui := {| volume := vol; isMuted := (vol =? 0)%float;
                      waveformData := waveformData (ui w) |};
             audioRef := Some audio' |}
      end
  end.

(** [volume || 0.5]: zero and NaN are falsy. *)
Definition orHalf (volume : float) : float :=
  if ((volume =? 0) || is_nan volume)%float then 0.5%float else volume.

Definition toggleMute (w : World) : World :=
  match audioRef w with
  | None => w
  | Some audio =>
      if isMuted (ui w) then
        match HTMLAudioElement.setVolume (orHalf (volume (ui w))) audio with
        | None => w
        | Some audio' =>
            {| ui := {| volume := orHalf (volume (ui w)); isMuted := false;
                        waveformData := waveformData (ui w) |};
               audioRef := Some audio' |}
        end
      else
        match HTMLAudioElement.setVolume 0 audio with
        | None => w
        | Some audio' =>
            {| ui := {| volume := volume (ui w); isMuted := true;
                        waveformData := waveformData (ui w) |};
               audioRef := Some audio' |}
        end
  end.

(** What the user does to the volume controls. *)
Inductive Event :=
| drag_volume (vol : float)
| click_mute.

Definition step (e : Event) (w : World) : World :=
  match e with
  | drag_volume vol => handleVolumeChange vol w
  | click_mute => toggleMute w
  end.

Definition run (es : list Event) (w : World) : World :=
  fold_left (fun w e => step e w) es w.

(** [value={isMuted ? 0 : volume}] of the volume slider. *)
Definition sliderValue (s : State) : float :=
  if isMuted s then 0%float else volume s.

End AudioPlayer.

(* ------------------------------------------------------------------ *)
(** ** App: its events *)

Module AppRun.

(** The [App] state and the calls of [handleAnalyze] waiting at their
    [await], oldest first, each with the [audioFile] of its closure. *)
Record World := {
  st : App.State;
  pending : list File.t
}.

Definition initial : World := {| st := App.initial; pending := [] |}.

Inductive Event :=
| open_view (v : App.View)
| toggle_dark
| audio_selected (file : File.t) (url : nat)
| click_analyze
| timer_fires (random : nat -> Q) (now : Z)
| click_back.

Definition setView (v : App.View) (s : App.State) : App.State :=
  {| App.darkMode := App.darkMode s; App.view := v;
     App.audioFile := App.audioFile s; App.audioUrl := App.audioUrl s;
     App.isAnalyzing := App.isAnalyzing s; App.result := App.result s;
     App.history := App.history s |}.

Definition setDarkMode (d : bool) (s : App.State) : App.State :=
  {| App.darkMode := d; App.view := App.view s;
     App.audioFile := App.audioFile s; App.audioUrl := App.audioUrl s;
     App.isAnalyzing := App.isAnalyzing s; App.result := App.result s;
     App.history := App.history s |}.

(** The "Analyze Emotion" button is rendered on the upload and record views
    once [audioUrl] is set, and is disabled while [isAnalyzing]. *)
Definition analyzeEnabled (s : App.State) : bool :=
  match App.view s, App.audioUrl s with
  | App.home, _ => false
  | _, None => false
  | _, Some _ => negb (App.isAnalyzing s)
  end.

Definition step (e : Event) (w : World) : World :=
  match e with
  | open_view v =>
      match App.view (st w) with
      | App.home => {| st := setView v (st w); pending := pending w |}
      | _ => w
      end
  | toggle_dark =>
      {| st := setDarkMode (negb (App.darkMode (st w))) (st w); pending := pending w |}
  | audio_selected file url =>
      {| st := App.handleAudioSelected file url (st w); pending := pending w |}
  | click_analyze =>
      if analyzeEnabled (st w) then
        match App.handleAnalyze_start (st w) with
        | (Some file, s') => {| st := s'; pending := (pending w ++ [file])%list |}
        | (None, s') => {| st := s'; pending := pending w |}
        end
      else w
  | timer_fires random now =>
      match pending w with
      | [] => w
      | file :: rest =>
          {| st := App.handleAnalyze_resume file random now (st w); pending := rest |}
      end
  | click_back =>
      match App.view (st w) with
      | App.home => w
      | _ => {| st := App.handleReset (st w); pending := pending w |}
      end
  end.

Definition run (es : list Event) (w : World) : World :=
  fold_left (fun w e => step e w) es w.

(** An event whose [Math.random()] values lie in [0, 1). *)
Definition randomInRange (e : Event) : Prop :=
  match e with
  | timer_fires random _ => forall n, 0 <= random n < 1
  | _ => True
  end.

End AppRun.

(* ------------------------------------------------------------------ *)
(** ** Well-formed registries *)

(** Every live object URL has been handed out. *)
Definition urlsWellFormed (r : URL.registry) : Prop :=
  Forall (fun u => (u < URL.next r)%nat) (URL.live r).

(** Every live stream has been handed out. *)
Definition streamsWellFormed (b : AudioRecorder.Browser) : Prop :=
  Forall (fun s => (s < AudioRecorder.nextStream b)%nat) (AudioRecorder.liveStreams b).

(** What the volume handlers keep: state and element hold volumes in
    [0, 1]; muted, the element is silent; not muted, the element plays at
    the volume of the state, which is not zero. *)
Definition volumeInvariant (w : AudioPlayer.World) : Prop :=
  exists audio,
    AudioPlayer.audioRef w = Some audio
    /\ ((0 <=? AudioPlayer.volume (AudioPlayer.ui w))
        && (AudioPlayer.volume (AudioPlayer.ui w) <=? 1))%float = true
    /\ AudioPlayer.isMuted (AudioPlayer.ui w)
       = (AudioPlayer.HTMLAudioElement.volume audio =? 0)%float
    /\ (AudioPlayer.isMuted (AudioPlayer.ui w) = false ->
        AudioPlayer.HTMLAudioElement.volume audio = AudioPlayer.volume (AudioPlayer.ui w)).

(** Hoare triples for the handlers' monad. *)
Definition hoare {S A} (pre : S -> Prop) (m : M S A) (post : A -> S -> Prop) : Prop :=
  forall s, pre s -> post (fst (m s)) (snd (m s)).

(** A computation keeps an invariant. *)
Definition keeps {S A} (inv : S -> Prop) (m : M S A) : Prop :=
  hoare inv m (fun _ => inv).

(** The counter of the recorder is between 0 and the maximum. *)
Definition recordingTimeInRange {P} (w : AudioRecorder.World P) : Prop :=
  (0 <= AudioRecorder.recordingTime (AudioRecorder.ui w) <= AudioRecorder.MAX_RECORDING_TIME)%Z.

(** Every stream that is live has been handed out: kept by every event. *)
Definition streamsInv {P} (w : AudioRecorder.World P) : Prop :=
  streamsWellFormed (AudioRecorder.browser w).

(* ------------------------------------------------------------------ *)
(** ** Concrete inputs used to exercise the statements below *)

Module Samples.

Local Open Scope string_scope.

Definition wavFile : File.t :=
  {| File.name := "speech.wav"; File.type := "audio/wav"; File.size := 10 * 1024 * 1024 |}.

(** A 60 MiB WAV file. *)
Definition bigWav : File.t :=
  {| File.name := "long-take.wav"; File.type := "audio/wav"; File.size := 60 * 1024 * 1024 |}.

(** A 60 MiB Ogg file: neither its media type nor its extension is accepted. *)
Definition bigOgg : File.t :=
  {| File.name := "long-take.ogg"; File.type := "audio/ogg"; File.size := 60 * 1024 * 1024 |}.

Definition otherWav : File.t :=
  {| File.name := "second.wav"; File.type := "audio/wav"; File.size := 2048 |}.

(** An upload component freshly mounted under the [App] in its initial state. *)
Definition uploadWorld : AudioUpload.World App.State :=
  {| AudioUpload.ui := AudioUpload.initial;
     AudioUpload.urls := URL.empty;
     AudioUpload.parent := App.initial |}.

(** A run of [Math.random()]. *)
Definition draws (n : nat) : Q :=
  match n with
  | 0%nat => 3 # 10
  | 1%nat => 1 # 2
  | 2%nat => 1 # 10
  | 3%nat => 9 # 10
  | _ => 1 # 4
  end.

Definition prediction (k : Z) : EmotionPrediction.t :=
  {| EmotionPrediction.emotion := "happy";
     EmotionPrediction.confidence := 70;
     EmotionPrediction.timestamp := k;
     EmotionPrediction.audioName := Some "speech.wav" |}.

(** Eleven classification results, [prediction 1] recorded first. *)
Definition elevenPredictions : list EmotionPrediction.t :=
  map prediction [1; 2; 3; 4; 5; 6; 7; 8; 9; 10; 11]%Z.

(** A classification of [wavFile] is started, [otherWav] is selected while
    it is outstanding, then the call resolves. *)
Definition selectedFirst : App.State := App.handleAudioSelected wavFile 0 App.initial.
Definition analysing : App.State := snd (App.handleAnalyze_start selectedFirst).
Definition selectedSecond : App.State := App.handleAudioSelected otherWav 1 analysing.
Definition resolvedLate : App.State :=
  App.handleAnalyze_resume wavFile draws 1700000002000 selectedSecond.

(** The parent of the recorder as a log of the calls of [onAudioRecorded]. *)
Definition logArtifact (file : File.t) (url : nat) (log : list (File.t * nat))
  : list (File.t * nat) := (file, url) :: log.

(** The recorder mounted, microphone permission granted. *)
Definition recorderReady : AudioRecorder.World (list (File.t * nat)) :=
  AudioRecorder.run logArtifact [AudioRecorder.permission_settles true]
                    (AudioRecorder.mounted []).

(** The recorder after "Start Recording", the microphone granted. *)
Definition recorderRecording : AudioRecorder.World (list (File.t * nat)) :=
  AudioRecorder.run logArtifact
                    [AudioRecorder.click_record; AudioRecorder.getUserMedia_settles true]
                    recorderReady.

(** A session: a file is selected on the upload view and analysed. *)
Definition session : list AppRun.Event :=
  [AppRun.open_view App.upload; AppRun.audio_selected wavFile 0;
   AppRun.click_analyze; AppRun.timer_fires draws 1700000002000].

(** Fragments as the recorder delivers them, an empty one among them. *)
Definition fragments : list Blob.t :=
  [ {| Blob.size := 1600; Blob.type := "audio/webm" |};
    {| Blob.size := 0; Blob.type := "audio/webm" |};
    {| Blob.size := 1500; Blob.type := "audio/webm" |} ].


End Samples.

Unset Implicit Arguments.

(* ------------------------------------------------------------------ *)
(** * Properties *)

(** ** The upload validator *)




(** The two guards of [validateFile] in terms of [formatAccepted] and the
    size bound. *)
Lemma format_guard (file : File.t) :
  negb (AudioUpload.includes AudioUpload.ACCEPTED_FORMATS (File.type file))
  && negb (AudioUpload.matchesExtension (File.name file))
  = negb (AudioUpload.formatAccepted file).
Proof. unfold AudioUpload.formatAccepted. now rewrite negb_orb. Qed.

Ltac unfold_upload :=
  unfold AudioUpload.handleFile, AudioUpload.validateFile,
         AudioUpload.setError, AudioUpload.setSelectedFile,
         AudioUpload.createObjectURL, AudioUpload.revokeObjectURL,
         AudioUpload.notifyParent, bind, ret, modify.





(** [validateFile] touches neither the parent nor the selected file, and
    whenever it answers [false] it has set one of the five messages. *)
Lemma validateFile_frame (P : Type) (file : File.t) (ev : MediaEvent)
      (w : AudioUpload.World P) :
  let r := AudioUpload.validateFile file ev w in
  AudioUpload.parent (snd r) = AudioUpload.parent w
  /\ AudioUpload.selectedFile (AudioUpload.ui (snd r))
     = AudioUpload.selectedFile (AudioUpload.ui w)
  /\ (fst r = false ->
      exists e, AudioUpload.error (AudioUpload.ui (snd r)) = Some (AudioUpload.message e)).
Proof.
  unfold_upload.
  destruct (negb (AudioUpload.includes AudioUpload.ACCEPTED_FORMATS (File.type file))
            && negb (AudioUpload.matchesExtension (File.name file))).
  { cbn. repeat split. intros _. now exists AudioUpload.UnsupportedFormat. }
  destruct (AudioUpload.MAX_FILE_SIZE <? File.size file)%Z.
  { cbn. repeat split. intros _. now exists AudioUpload.FileTooLarge. }
  destruct ev as [d|]; unfold AudioUpload.MAX_DURATION; cbn.
  - destruct (300 <? d)%float; cbn.
    { repeat split. intros _. now exists AudioUpload.TooLong. }
    destruct (d <? 0.5)%float; cbn.
    { repeat split. intros _. now exists AudioUpload.TooShort. }
    repeat split. discriminate.
  - repeat split. intros _. now exists AudioUpload.DecodeFailed.
Qed.

(** On a rejection [handleFile] stops after [validateFile]. *)
Lemma handleFile_rejected (P : Type) (onAudioSelected : File.t -> nat -> P -> P)
      (file : File.t) (ev : MediaEvent) (w : AudioUpload.World P) :
  fst (AudioUpload.validateFile file ev w) = false ->
  snd (AudioUpload.handleFile onAudioSelected file ev w)
  = snd (AudioUpload.validateFile file ev w).
Proof.
  intros Hr. unfold AudioUpload.handleFile, bind.
  destruct (AudioUpload.validateFile file ev w) as [b w1].
  cbn in Hr. subst b. reflexivity.
Qed.

(** C2 as stated fails: a 60 MiB file whose media type and extension are
    both outside the accepted set is turned away by the format check,
    which runs first. *)
Lemma oversize_unsupported_counterexample :
  let r := AudioUpload.validateFile Samples.bigOgg (loadedmetadata 10) Samples.uploadWorld in
  (AudioUpload.MAX_FILE_SIZE < File.size Samples.bigOgg)%Z
  /\ fst r = false
  /\ AudioUpload.error (AudioUpload.ui (snd r))
     = Some (AudioUpload.message AudioUpload.UnsupportedFormat)
  /\ AudioUpload.error (AudioUpload.ui (snd r))
     <> Some (AudioUpload.message AudioUpload.FileTooLarge).
Proof.
  cbv zeta. split; [reflexivity|]. split; [reflexivity|].
  split; [reflexivity|]. vm_compute. discriminate.
Qed.

(** C2, amended.  A payload of more than 50 MiB is always rejected, whatever
    the probe would say: with the too-large message when its media type or
    its extension is accepted, with the unsupported-format message
    otherwise. *)
Theorem oversize_outcome_by_format (P : Type) (file : File.t) (ev : MediaEvent)
        (w : AudioUpload.World P) :
  (AudioUpload.MAX_FILE_SIZE < File.size file)%Z ->
  let r := AudioUpload.validateFile file ev w in
  fst r = false
  /\ AudioUpload.error (AudioUpload.ui (snd r))
     = Some (AudioUpload.message
               (if AudioUpload.formatAccepted file
                then AudioUpload.FileTooLarge
                else AudioUpload.UnsupportedFormat)).
Proof.
  intros Hsize. unfold_upload. rewrite format_guard.
  destruct (AudioUpload.formatAccepted file); cbn [negb].
  - apply Z.ltb_lt in Hsize. rewrite Hsize. cbn. split; reflexivity.
  - cbn. split; reflexivity.
Qed.

Lemma oversize_outcome_by_format_witness :
  (AudioUpload.MAX_FILE_SIZE < File.size Samples.bigWav)%Z
  /\ (let r := AudioUpload.validateFile Samples.bigWav (loadedmetadata 10) Samples.uploadWorld in
      fst r = false
      /\ AudioUpload.error (AudioUpload.ui (snd r))
         = Some (AudioUpload.message AudioUpload.FileTooLarge)).
Proof.
  assert (Hs : (AudioUpload.MAX_FILE_SIZE < File.size Samples.bigWav)%Z) by reflexivity.
  split; [exact Hs|].
  exact (oversize_outcome_by_format App.State Samples.bigWav (loadedmetadata 10)
           Samples.uploadWorld Hs).
Defined.

(** C8.  When [validateFile] rejects, [handleFile] does not call
    [onAudioSelected]: the [App] above is exactly as it was, so the file a
    later [handleAnalyze] would classify is the one it would have
    classified before; the component keeps its previous selected file, and
    the one thing it shows is the message of the validation error. *)
Theorem rejection_creates_no_artifact (file : File.t) (ev : MediaEvent)
        (w : AudioUpload.World App.State) :
  fst (AudioUpload.validateFile file ev w) = false ->
  let w' := snd (AudioUpload.handleFile App.handleAudioSelected file ev w) in
  AudioUpload.parent w' = AudioUpload.parent w
  /\ AudioUpload.selectedFile (AudioUpload.ui w')
     = AudioUpload.selectedFile (AudioUpload.ui w)
  /\ fst (App.handleAnalyze_start (AudioUpload.parent w'))
     = fst (App.handleAnalyze_start (AudioUpload.parent w))
  /\ exists e, AudioUpload.error (AudioUpload.ui w') = Some (AudioUpload.message e).
Proof.
  intros Hr w'. subst w'. rewrite (handleFile_rejected _ _ _ _ _ Hr).
  destruct (validateFile_frame App.State file ev w) as (Hp & Hs & He).
  rewrite Hp. repeat split; auto.
Qed.

Lemma rejection_creates_no_artifact_witness :
  fst (AudioUpload.validateFile Samples.bigWav error_event Samples.uploadWorld) = false
  /\ AudioUpload.parent
       (snd (AudioUpload.handleFile App.handleAudioSelected Samples.bigWav error_event
               Samples.uploadWorld))
     = App.initial.
Proof.
  assert (Hr : fst (AudioUpload.validateFile Samples.bigWav error_event Samples.uploadWorld)
               = false) by reflexivity.
  split; [exact Hr|].
  exact (proj1 (rejection_creates_no_artifact Samples.bigWav error_event
                  Samples.uploadWorld Hr)).
Defined.

(* ------------------------------------------------------------------ *)
(** ** Sorting *)

Section SortFacts.
Variable A : Type.
Variable compareFn : A -> A -> Q.

Lemma insertSorted_perm (x : A) (l : list A) :
  Permutation (insertSorted compareFn x l) (x :: l).
Proof.
  induction l as [|y l IH]; cbn; [apply Permutation_refl|].
  destruct (Qle_bool (compareFn x y) 0); [apply Permutation_refl|].
  apply perm_trans with (y :: x :: l); [now apply perm_skip | apply perm_swap].
Qed.

Lemma sort_perm (l : list A) : Permutation (sort compareFn l) l.
Proof.
  induction l as [|x l IH]; cbn; [constructor|].
  apply perm_trans with (x :: sort compareFn l);
    [apply insertSorted_perm | now apply perm_skip].
Qed.

(** When of two elements one may always stand before the other, the sort
    puts every element before its successor. *)
Hypothesis compareFn_total : forall x y, ~ mayPrecede compareFn x y -> mayPrecede compareFn y x.

Lemma insertSorted_sorted (x : A) (l : list A) :
  Sorted (mayPrecede compareFn) l -> Sorted (mayPrecede compareFn) (insertSorted compareFn x l).
Proof.
  induction l as [|y l IH]; cbn; intros Hs.
  - repeat constructor.
  - destruct (Qle_bool (compareFn x y) 0) eqn:E.
    + constructor; [exact Hs|]. constructor. now apply Qle_bool_iff.
    + assert (Hyx : mayPrecede compareFn y x).
      { apply compareFn_total. intros H. apply Qle_bool_iff in H. congruence. }
      inversion Hs as [|? ? Hl Hhd]; subst.
      constructor; [now apply IH|].
      destruct l as [|z l]; cbn.
      * now constructor.
      * destruct (Qle_bool (compareFn x z) 0); constructor; [exact Hyx|].
        now inversion Hhd.
Qed.

Lemma sort_sorted (l : list A) : Sorted (mayPrecede compareFn) (sort compareFn l).
Proof.
  induction l as [|x l IH]; cbn; [constructor | now apply insertSorted_sorted].
Qed.

End SortFacts.

(* ------------------------------------------------------------------ *)
(** ** The mock classifier *)

Lemma byConfidenceDesc_mayPrecede (a b : Score.t) :
  mayPrecede App.byConfidenceDesc a b <-> confidenceDesc a b.
Proof. unfold mayPrecede, App.byConfidenceDesc, confidenceDesc. split; intros; lra. Qed.

Lemma sort_byConfidenceDesc_sorted (l : list Score.t) :
  StronglySorted confidenceDesc (sort App.byConfidenceDesc l).
Proof.
  apply Sorted_StronglySorted.
  - intros a b c. unfold confidenceDesc. intros; lra.
  - assert (Hs : Sorted (mayPrecede App.byConfidenceDesc) (sort App.byConfidenceDesc l)).
    { apply sort_sorted. unfold mayPrecede, App.byConfidenceDesc. intros; lra. }
    induction Hs as [|a l' Hl IH Hhd]; constructor; [exact IH|].
    destruct Hhd; constructor. now apply byConfidenceDesc_mayPrecede.
Qed.

(** Removing one label from a duplicate-free list. *)
Lemma filter_out_perm (x : string) (l : list string) :
  NoDup l -> In x l ->
  Permutation (x :: filter (fun e => negb (String.eqb e x)) l) l.
Proof.
  induction l as [|a l IH]; intros Hnd Hin; [destruct Hin|].
  inversion Hnd as [|? ? Hni Hnd']; subst. cbn.
  destruct (String.eqb_spec a x) as [->|Hne]; cbn.
  - apply perm_skip.
    assert (Hall : forall e, In e l -> negb (String.eqb e x) = true).
    { intros e He. destruct (String.eqb_spec e x); [subst; contradiction|reflexivity]. }
    clear -Hall. induction l as [|b l IHl]; cbn; [constructor|].
    rewrite (Hall b (or_introl eq_refl)). apply perm_skip. apply IHl.
    intros e He. apply Hall. now right.
  - destruct Hin as [->|Hin]; [congruence|].
    apply perm_trans with (a :: x :: filter (fun e => negb (String.eqb e x)) l);
      [apply perm_swap | apply perm_skip; now apply IH].
Qed.

Lemma emotions_NoDup : NoDup App.emotions.
Proof.
  apply (NoDup_count_occ' string_dec). intros x Hx.
  repeat (destruct Hx as [<-|Hx]; [reflexivity|]). destruct Hx.
Qed.

Section MockFacts.
Variable random : nat -> Q.
Hypothesis random_range : forall n, 0 <= random n < 1.

Lemma primaryIndex_range : (0 <= App.primaryIndex random < 7)%Z.
Proof.
  unfold App.primaryIndex. change (inject_Z (Z.of_nat (List.length App.emotions))) with 7.
  pose proof (random_range 0) as Hr.
  pose proof (Qfloor_le (random 0 * 7)) as Hlo.
  pose proof (Qlt_floor (random 0 * 7)) as Hhi.
  split.
  - assert (H : (0 < Qfloor (random 0 * 7) + 1)%Z); [|lia].
    rewrite Zlt_Qlt. change (inject_Z 0) with 0. lra.
  - rewrite Zlt_Qlt. change (inject_Z 7) with 7. lra.
Qed.

Lemma primaryEmotion_in_vocabulary : In (App.primaryEmotion random) App.emotions.
Proof.
  unfold App.primaryEmotion. apply nth_In.
  pose proof primaryIndex_range. cbn [List.length App.emotions]. lia.
Qed.

Lemma primaryConfidence_range :
  65 <= App.primaryConfidence random /\ App.primaryConfidence random < 95.
Proof. unfold App.primaryConfidence. pose proof (random_range 1). lra. Qed.

Lemma drawOthers_labels (k : nat) (es : list string) :
  map Score.emotion (App.drawOthers random k es) = es.
Proof. revert k. induction es as [|e es IH]; intros k; cbn; [|rewrite IH]; reflexivity. Qed.

Lemma drawOthers_range (k : nat) (es : list string) (e : Score.t) :
  In e (App.drawOthers random k es) ->
  0 <= Score.confidence e /\ Score.confidence e < 100 - App.primaryConfidence random.
Proof.
  revert k. induction es as [|x es IH]; intros k; cbn; [intros []|].
  intros [<-|Hin]; [|now apply (IH (S k))].
  cbn. pose proof (random_range k). pose proof primaryConfidence_range. nra.
Qed.

Lemma all_perm :
  Permutation (EmotionResult.all (App.mockResult random)) (App.primaryEntry random :: App.rawOthers random).
Proof.
  unfold App.mockResult, App.otherEmotions, App.primaryEntry, App.rawOthers.
  cbn [EmotionResult.all].
  eapply perm_trans; [apply sort_perm|].
  apply perm_skip. apply sort_perm.
Qed.

Lemma all_labels_perm :
  Permutation (map Score.emotion (EmotionResult.all (App.mockResult random))) App.emotions.
Proof.
  eapply perm_trans; [apply Permutation_map, all_perm|].
  cbn [map App.primaryEntry Score.emotion]. unfold App.rawOthers. rewrite drawOthers_labels.
  apply filter_out_perm; [apply emotions_NoDup | apply primaryEmotion_in_vocabulary].
Qed.

Lemma all_cases (e : Score.t) :
  In e (EmotionResult.all (App.mockResult random)) ->
  e = App.primaryEntry random
  \/ (0 <= Score.confidence e
      /\ Score.confidence e < 100 - App.primaryConfidence random).
Proof.
  intros Hin. apply (Permutation_in _ all_perm) in Hin.
  destruct Hin as [<-|Hin]; [now left|right].
  unfold App.rawOthers in Hin. now apply drawOthers_range in Hin.
Qed.

Lemma primaryEntry_in_all : In (App.primaryEntry random) (EmotionResult.all (App.mockResult random)).
Proof. apply (Permutation_in _ (Permutation_sym all_perm)). now left. Qed.

End MockFacts.

Lemma draws_range : forall n, 0 <= Samples.draws n < 1.
Proof.
  intros n. do 4 (destruct n as [|n]; [cbn; unfold Qle, Qlt; cbn; lia|]).
  cbn. unfold Qle, Qlt; cbn; lia.
Defined.

(** C3.  The result of the mock classification holds exactly seven entries;
    every label of the vocabulary is the label of exactly one of them, no
    entry carries a label outside the vocabulary, and every confidence lies
    in [0, 100]. *)
Theorem distribution_invariant (random : nat -> Q) :
  (forall n, 0 <= random n < 1) ->
  let entries := EmotionResult.all (App.mockResult random) in
  List.length entries = 7%nat
  /\ (forall label, In label App.emotions ->
        count_occ string_dec (map Score.emotion entries) label = 1%nat)
  /\ (forall e, In e entries -> In (Score.emotion e) App.emotions)
  /\ (forall e, In e entries -> 0 <= Score.confidence e <= 100).
Proof.
  intros Hr entries. pose proof (all_labels_perm random Hr) as Hperm. fold entries in Hperm.
  split; [|split; [|split]].
  - rewrite <- (length_map Score.emotion). now rewrite (Permutation_length Hperm).
  - intros label Hl.
    rewrite (proj1 (Permutation_count_occ string_dec _ _) Hperm label).
    apply (proj1 (NoDup_count_occ' string_dec App.emotions) emotions_NoDup). exact Hl.
  - intros e He. apply (Permutation_in _ Hperm). now apply in_map.
  - intros e He. pose proof (primaryConfidence_range random Hr) as Hp.
    destruct (all_cases random Hr e He) as [->|Hc]; cbn; lra.
Qed.

Lemma distribution_invariant_witness :
  (forall n, 0 <= Samples.draws n < 1)
  /\ List.length (EmotionResult.all (App.mockResult Samples.draws)) = 7%nat.
Proof.
  split; [exact draws_range|].
  exact (proj1 (distribution_invariant Samples.draws draws_range)).
Defined.

(** The spec's reading of "primary". *)

Lemma inVocabularyOrder_In (entries : list Score.t) (x : Score.t) :
  In x (App.inVocabularyOrder entries)
  <-> In x entries /\ In (Score.emotion x) App.emotions.
Proof.
  unfold App.inVocabularyOrder. rewrite in_flat_map. split.
  - intros (label & Hl & Hx). apply filter_In in Hx. destruct Hx as [Hx He].
    apply String.eqb_eq in He. subst label. now split.
  - intros [Hx Hl]. exists (Score.emotion x). split; [exact Hl|].
    apply filter_In. split; [exact Hx | apply String.eqb_refl].
Qed.

Lemma maxByConfidence_In (l : list Score.t) (m : Score.t) :
  App.maxByConfidence l = Some m -> In m l.
Proof.
  revert m. induction l as [|e l IH]; cbn; intros m; [discriminate|].
  destruct (App.maxByConfidence l) as [m'|].
  - destruct (Qle_bool (Score.confidence m') (Score.confidence e));
      intros [= <-]; [now left | right; now apply IH].
  - intros [= <-]. now left.
Qed.

(** An entry that is in the list and strictly above every other one is the
    maximum, wherever ties among the others fall. *)
Lemma maxByConfidence_dominant (p : Score.t) (l : list Score.t) :
  In p l ->
  (forall e, In e l -> e = p \/ Score.confidence e < Score.confidence p) ->
  App.maxByConfidence l = Some p.
Proof.
  induction l as [|e l IH]; intros Hin Hdom; [destruct Hin|]. cbn.
  destruct (App.maxByConfidence l) as [m|] eqn:Em.
  - pose proof (maxByConfidence_In l m Em) as Hm.
    destruct Hin as [->|Hin].
    + assert (Hle : Qle_bool (Score.confidence m) (Score.confidence p) = true).
      { apply Qle_bool_iff. destruct (Hdom m (or_intror Hm)) as [->|Hlt]; lra. }
      now rewrite Hle.
    + assert (Hmp : Some m = Some p).
      { apply IH; [exact Hin|]. intros x Hx. apply Hdom. now right. }
      injection Hmp as ->.
      destruct (Hdom e (or_introl eq_refl)) as [->|Hlt].
      * now destruct (Qle_bool (Score.confidence p) (Score.confidence p)).
      * destruct (Qle_bool (Score.confidence p) (Score.confidence e)) eqn:E; [|reflexivity].
        apply Qle_bool_iff in E. lra.
  - destruct Hin as [->|Hin]; [reflexivity|].
    assert (Hsome : None = Some p).
    { apply IH; [exact Hin|]. intros x Hx. apply Hdom. now right. }
    discriminate.
Qed.

(** The spec's own example: among (happy, 80), (sad, 90), (angry, 10) the
    primary entry is sad at 90. *)
Example spec_primary_example :
  App.spec_primary
    [ {| Score.emotion := "happy"; Score.confidence := 80 |};
      {| Score.emotion := "sad"; Score.confidence := 90 |};
      {| Score.emotion := "angry"; Score.confidence := 10 |} ]
  = Some {| Score.emotion := "sad"; Score.confidence := 90 |}.
Proof. reflexivity. Qed.

(** Ties go to the label declared first. *)
Example spec_primary_tie :
  App.spec_primary
    [ {| Score.emotion := "sad"; Score.confidence := 90 |};
      {| Score.emotion := "happy"; Score.confidence := 90 |} ]
  = Some {| Score.emotion := "happy"; Score.confidence := 90 |}.
Proof. reflexivity. Qed.

(** C4.  The [primary] of the result is the entry of [all] with maximum
    confidence, ties broken by the declaration order of the vocabulary. *)
Theorem primary_is_maximum (random : nat -> Q) :
  (forall n, 0 <= random n < 1) ->
  let r := App.mockResult random in
  App.spec_primary (EmotionResult.all r) = Some (EmotionResult.primary r).
Proof.
  intros Hr r. unfold App.spec_primary.
  change (EmotionResult.primary r) with (App.primaryEntry random).
  pose proof (primaryConfidence_range random Hr) as Hp.
  apply maxByConfidence_dominant.
  - apply inVocabularyOrder_In. split.
    + apply primaryEntry_in_all.
    + apply (primaryEmotion_in_vocabulary random Hr).
  - intros e He. apply inVocabularyOrder_In in He. destruct He as [He _].
    destruct (all_cases random Hr e He) as [->|Hc]; [now left|right].
    cbn. lra.
Qed.

Lemma primary_is_maximum_witness :
  (forall n, 0 <= Samples.draws n < 1)
  /\ App.spec_primary (EmotionResult.all (App.mockResult Samples.draws))
     = Some (EmotionResult.primary (App.mockResult Samples.draws)).
Proof.
  split; [exact draws_range|].
  exact (primary_is_maximum Samples.draws draws_range).
Defined.

(** C10.  [all] is sorted by non-increasing confidence and starts with the
    primary entry; the primary confidence lies in [65, 95]; every entry
    other than the primary one has a confidence strictly below 100 minus
    the primary confidence. *)
Theorem result_shape (random : nat -> Q) :
  (forall n, 0 <= random n < 1) ->
  let r := App.mockResult random in
  StronglySorted confidenceDesc (EmotionResult.all r)
  /\ hd_error (EmotionResult.all r) = Some (EmotionResult.primary r)
  /\ 65 <= Score.confidence (EmotionResult.primary r) <= 95
  /\ (forall e, In e (EmotionResult.all r) -> e <> EmotionResult.primary r ->
        Score.confidence e < 100 - Score.confidence (EmotionResult.primary r)).
Proof.
  intros Hr r.
  change (EmotionResult.primary r) with (App.primaryEntry random).
  pose proof (primaryConfidence_range random Hr) as Hp.
  assert (Hsorted : StronglySorted confidenceDesc (EmotionResult.all r))
    by apply sort_byConfidenceDesc_sorted.
  split; [exact Hsorted|]. split; [|split].
  - pose proof (primaryEntry_in_all random) as Hin. fold r in Hin.
    assert (Hcases := all_cases random Hr). fold r in Hcases.
    destruct (EmotionResult.all r) as [|h t]; [destruct Hin|]. cbn.
    destruct (Hcases h (or_introl eq_refl)) as [->|Hh]; [reflexivity|].
    destruct Hin as [->|Hin]; [reflexivity|].
    inversion Hsorted as [|? ? _ Hall]; subst.
    rewrite Forall_forall in Hall. specialize (Hall _ Hin).
    unfold confidenceDesc in Hall. cbn in Hall. lra.
  - cbn. lra.
  - intros e He Hne. destruct (all_cases random Hr e He) as [->|Hc]; [congruence|].
    cbn. lra.
Qed.

Lemma result_shape_witness :
  (forall n, 0 <= Samples.draws n < 1)
  /\ hd_error (EmotionResult.all (App.mockResult Samples.draws))
     = Some (EmotionResult.primary (App.mockResult Samples.draws)).
Proof.
  split; [exact draws_range|].
  exact (proj1 (proj2 (result_shape Samples.draws draws_range))).
Defined.

(* ------------------------------------------------------------------ *)
(** ** The history ledger *)

Lemma addToHistory_firstn (entry : EmotionPrediction.t) (l : list EmotionPrediction.t) :
  App.addToHistory entry (firstn 10 l) = firstn 10 (entry :: l).
Proof.
  unfold App.addToHistory. rewrite firstn_firstn. reflexivity.
Qed.

(** Inserting into a ledger cut at ten entries and cutting afterwards
    commute. *)
Lemma recordAll_firstn (entries l : list EmotionPrediction.t) :
  App.recordAll entries (firstn 10 l) = firstn 10 (rev entries ++ l)%list.
Proof.
  revert l. induction entries as [|e es IH]; intros l; [reflexivity|].
  unfold App.recordAll in *. cbn [fold_left rev].
  rewrite addToHistory_firstn, IH, <- app_assoc. reflexivity.
Qed.

Lemma recordAll_nonempty (e : EmotionPrediction.t) (es ledger : list EmotionPrediction.t) :
  App.recordAll (e :: es) ledger = firstn 10 (rev (e :: es) ++ ledger)%list.
Proof.
  unfold App.recordAll. cbn [fold_left rev].
  change (App.addToHistory e ledger) with (firstn 10 (e :: ledger)).
  fold (App.recordAll es (firstn 10 (e :: ledger))).
  rewrite recordAll_firstn, <- app_assoc. reflexivity.
Qed.

(** C5.  [handleAnalyze] puts its entry in front of the first nine entries
    of the ledger.  After eleven insertions, into whatever ledger, the
    ledger has exactly ten entries: the last ten inserted, newest first;
    the entry inserted first is gone (it can only be found there if it was
    inserted again later). *)
Theorem history_keeps_ten_newest (entries ledger : list EmotionPrediction.t) :
  List.length entries = 11%nat ->
  (forall file random now st,
     App.history (App.handleAnalyze_resume file random now st)
     = {| EmotionPrediction.emotion := App.primaryEmotion random;
          EmotionPrediction.confidence := App.primaryConfidence random;
          EmotionPrediction.timestamp := now;
          EmotionPrediction.audioName := Some (File.name file) |}
       :: firstn 9 (App.history st))
  /\ List.length (App.recordAll entries ledger) = 10%nat
  /\ App.recordAll entries ledger = rev (tl entries)
  /\ (forall oldest rest, entries = oldest :: rest ->
        ~ In oldest rest -> ~ In oldest (App.recordAll entries ledger)).
Proof.
  intros Hlen.
  assert (Hrec : App.recordAll entries ledger = rev (tl entries)).
  { destruct entries as [|e es]; [discriminate|].
    rewrite recordAll_nonempty. cbn [tl rev].
    assert (Hes : List.length (rev es) = 10%nat)
      by (rewrite length_rev; cbn in Hlen; lia).
    rewrite <- app_assoc, firstn_app, Hes, Nat.sub_diag, firstn_O, app_nil_r.
    apply firstn_all2. lia. }
  split; [reflexivity|]. split; [|split].
  - rewrite Hrec, length_rev. destruct entries; [discriminate|]. cbn in *. lia.
  - exact Hrec.
  - intros oldest rest -> Hni. rewrite Hrec. cbn [tl]. now rewrite <- in_rev.
Qed.

Lemma history_keeps_ten_newest_witness :
  List.length Samples.elevenPredictions = 11%nat
  /\ App.recordAll Samples.elevenPredictions []
     = map Samples.prediction [11; 10; 9; 8; 7; 6; 5; 4; 3; 2]%Z.
Proof.
  split; [reflexivity|].
  exact (proj1 (proj2 (proj2
           (history_keeps_ten_newest Samples.elevenPredictions [] eq_refl)))).
Defined.

(* ------------------------------------------------------------------ *)
(** ** Selecting a new artifact during a classification *)

(** C9 as stated fails: the call started for [wavFile] resolves after
    [otherWav] has been selected; its result replaces the cleared result of
    the new selection, and the ledger gets an entry under the old name. *)
Lemma stale_result_counterexample :
  fst (App.handleAnalyze_start Samples.selectedFirst) = Some Samples.wavFile
  /\ App.result Samples.selectedSecond = None
  /\ App.audioFile Samples.resolvedLate = Some Samples.otherWav
  /\ App.result Samples.resolvedLate = Some (App.mockResult Samples.draws)
  /\ map EmotionPrediction.audioName (App.history Samples.resolvedLate)
     = [Some "speech.wav"%string].
Proof. repeat split. Qed.

(** C9, amended.  Selecting an artifact clears the displayed result at that
    moment and nothing more; a call of [handleAnalyze] that resolves
    afterwards is not checked against the current artifact: it stores its
    result, ends the analysing state, leaves the current artifact in place
    and records its entry under the name of the file it was started for. *)
Theorem late_result_is_stored (started : File.t) (random : nat -> Q) (now : Z)
        (file : File.t) (url : nat) (st : App.State) :
  let selected := App.handleAudioSelected file url st in
  let resolved := App.handleAnalyze_resume started random now selected in
  App.result selected = None
  /\ App.audioFile resolved = Some file
  /\ App.audioUrl resolved = Some url
  /\ App.result resolved = Some (App.mockResult random)
  /\ App.isAnalyzing resolved = false
  /\ option_map EmotionPrediction.audioName (hd_error (App.history resolved))
     = Some (Some (File.name started)).
Proof. cbv zeta. repeat split. Qed.

(* ------------------------------------------------------------------ *)
(** ** The recorder *)

(** A [stopRecording] whose render saw [isRecording = false] does nothing. *)
Lemma stopRecording_stale (P : Type) (w : AudioRecorder.World P) :
  AudioRecorder.stopRecording false w = (tt, w).
Proof.
  unfold AudioRecorder.stopRecording, AudioRecorder.gets, bind, ret.
  now destruct (AudioRecorder.mediaRecorderRef (AudioRecorder.refs w)).
Qed.

(** One firing of a timer installed by such a render: the counter moves
    up to the maximum and stays there; nothing else changes. *)
Lemma interval_fires_stale (P : Type) (onAudioRecorded : File.t -> nat -> P -> P)
      (timer : nat) (w : AudioRecorder.World P) :
  AudioRecorder.lookupInterval timer (AudioRecorder.intervals (AudioRecorder.browser w))
  = Some false ->
  let w' := snd (AudioRecorder.step onAudioRecorded (AudioRecorder.interval_fires timer) w) in
  AudioRecorder.refs w' = AudioRecorder.refs w
  /\ AudioRecorder.browser w' = AudioRecorder.browser w
  /\ AudioRecorder.parent w' = AudioRecorder.parent w
  /\ AudioRecorder.isRecording (AudioRecorder.ui w') = AudioRecorder.isRecording (AudioRecorder.ui w)
  /\ AudioRecorder.audioBlob (AudioRecorder.ui w') = AudioRecorder.audioBlob (AudioRecorder.ui w)
  /\ AudioRecorder.recordingTime (AudioRecorder.ui w')
     = (if (AudioRecorder.MAX_RECORDING_TIME <=? AudioRecorder.recordingTime (AudioRecorder.ui w))%Z
        then AudioRecorder.recordingTime (AudioRecorder.ui w)
        else AudioRecorder.recordingTime (AudioRecorder.ui w) + 1)%Z.
Proof.
  intros Hl w'.
  assert (Hw : w' = snd (AudioRecorder.setRecordingTime
                           (if (AudioRecorder.MAX_RECORDING_TIME
                                <=? AudioRecorder.recordingTime (AudioRecorder.ui w))%Z
                            then AudioRecorder.recordingTime (AudioRecorder.ui w)
                            else AudioRecorder.recordingTime (AudioRecorder.ui w) + 1)%Z w)).
  { subst w'. unfold AudioRecorder.step, AudioRecorder.gets, bind. cbn beta iota.
    rewrite Hl. unfold AudioRecorder.intervalCallback, AudioRecorder.gets, bind.
    cbn beta iota.
    destruct (AudioRecorder.MAX_RECORDING_TIME
              <=? AudioRecorder.recordingTime (AudioRecorder.ui w))%Z;
      [rewrite stopRecording_stale|]; reflexivity. }
  rewrite Hw. cbn. repeat split.
Qed.

Lemma intervals_fire_stale (P : Type) (onAudioRecorded : File.t -> nat -> P -> P)
      (timer : nat) (n : nat) (k : Z) (w : AudioRecorder.World P) :
  AudioRecorder.lookupInterval timer (AudioRecorder.intervals (AudioRecorder.browser w))
  = Some false ->
  (0 <= k)%Z ->
  AudioRecorder.recordingTime (AudioRecorder.ui w) = Z.min k 300 ->
  let w' := AudioRecorder.run onAudioRecorded
              (repeat (AudioRecorder.interval_fires timer) n) w in
  AudioRecorder.refs w' = AudioRecorder.refs w
  /\ AudioRecorder.browser w' = AudioRecorder.browser w
  /\ AudioRecorder.parent w' = AudioRecorder.parent w
  /\ AudioRecorder.isRecording (AudioRecorder.ui w') = AudioRecorder.isRecording (AudioRecorder.ui w)
  /\ AudioRecorder.audioBlob (AudioRecorder.ui w') = AudioRecorder.audioBlob (AudioRecorder.ui w)
  /\ AudioRecorder.recordingTime (AudioRecorder.ui w') = Z.min (k + Z.of_nat n) 300.
Proof.
  revert k w. induction n as [|n IH]; intros k w Hl Hk Ht.
  - cbn. repeat split. rewrite Ht. f_equal. lia.
  - cbn [repeat AudioRecorder.run].
    destruct (interval_fires_stale P onAudioRecorded timer w Hl)
      as (Hrefs & Hbr & Hpar & Hrec & Hblob & Htime).
    set (w1 := snd (AudioRecorder.step onAudioRecorded (AudioRecorder.interval_fires timer) w)) in *.
    assert (Hl1 : AudioRecorder.lookupInterval timer
                    (AudioRecorder.intervals (AudioRecorder.browser w1)) = Some false)
      by (rewrite Hbr; exact Hl).
    assert (Ht1 : AudioRecorder.recordingTime (AudioRecorder.ui w1) = Z.min (k + 1) 300).
    { rewrite Htime, Ht. unfold AudioRecorder.MAX_RECORDING_TIME.
      destruct (Z.leb_spec 300 (Z.min k 300)); lia. }
    destruct (IH (k + 1)%Z w1 Hl1 ltac:(lia) Ht1) as (H1 & H2 & H3 & H4 & H5 & H6).
    repeat split; try congruence.
    rewrite H6. f_equal. lia.
Qed.

Lemma updateAt_last {A : Type} (f : A -> A) (l : list A) (x : A) :
  AudioRecorder.updateAt (List.length l) f (l ++ [x]) = (l ++ [f x])%list.
Proof. induction l as [|a l IH]; cbn; [|rewrite IH]; reflexivity. Qed.

Lemma nth_error_last {A : Type} (l : list A) (x : A) :
  nth_error (l ++ [x]) (List.length l) = Some x.
Proof. induction l as [|a l IH]; cbn; [reflexivity | exact IH]. Qed.

(** The world right after a click on "Start Recording" whose microphone
    request is granted. *)
Lemma start_granted (P : Type) (onAudioRecorded : File.t -> nat -> P -> P)
      (w : AudioRecorder.World P) :
  AudioRecorder.audioBlob (AudioRecorder.ui w) = None ->
  AudioRecorder.permissionGranted (AudioRecorder.ui w) = true ->
  AudioRecorder.isRecording (AudioRecorder.ui w) = false ->
  AudioRecorder.pendingUserMedia (AudioRecorder.browser w) = [] ->
  let b := AudioRecorder.browser w in
  let w' := AudioRecorder.run onAudioRecorded
              [AudioRecorder.click_record; AudioRecorder.getUserMedia_settles true] w in
  AudioRecorder.isRecording (AudioRecorder.ui w') = true
  /\ AudioRecorder.recordingTime (AudioRecorder.ui w') = 0%Z
  /\ AudioRecorder.audioBlob (AudioRecorder.ui w') = None
  /\ AudioRecorder.parent w' = AudioRecorder.parent w
  /\ AudioRecorder.liveStreams (AudioRecorder.browser w')
     = AudioRecorder.nextStream b :: AudioRecorder.liveStreams b
  /\ AudioRecorder.recorders (AudioRecorder.browser w')
     = (AudioRecorder.recorders b
        ++ [{| AudioRecorder.MediaRecorder.stream := AudioRecorder.nextStream b;
               AudioRecorder.MediaRecorder.state := AudioRecorder.recording |}])%list
  /\ AudioRecorder.intervals (AudioRecorder.browser w')
     = (AudioRecorder.nextTimer b, false) :: AudioRecorder.intervals b
  /\ AudioRecorder.timerRef (AudioRecorder.refs w') = Some (AudioRecorder.nextTimer b)
  /\ AudioRecorder.mediaRecorderRef (AudioRecorder.refs w')
     = Some (List.length (AudioRecorder.recorders b)).
Proof.
  destruct w as [[rec time blob err perm] r b p]. cbn.
  intros -> -> -> Hq.
  destruct b as [ns live recs sq nt ivs pend urls]. cbn in Hq. subst pend.
  cbv -[AudioRecorder.updateAt List.length app].
  change (@nil bool ++ [false])%list with [false].
  cbv -[AudioRecorder.updateAt List.length app].
  rewrite updateAt_last. repeat split.
Qed.

(** An explicit stop finalizes: after a click on "Stop Recording" and the
    recorder's [stop] event, the recorder is inactive, the timer is gone,
    the stream is released and exactly one artifact has been handed to the
    parent. *)
Example explicit_stop_finalizes :
  let w := AudioRecorder.run Samples.logArtifact
             [AudioRecorder.click_record; AudioRecorder.getUserMedia_settles true;
              AudioRecorder.dataavailable {| Blob.size := 1600; Blob.type := "audio/webm" |};
              AudioRecorder.interval_fires 1;
              AudioRecorder.dataavailable {| Blob.size := 1500; Blob.type := "audio/webm" |};
              AudioRecorder.click_record;
              AudioRecorder.stop_fires 1700000000000]
             Samples.recorderReady in
  AudioRecorder.isRecording (AudioRecorder.ui w) = false
  /\ map AudioRecorder.MediaRecorder.state (AudioRecorder.recorders (AudioRecorder.browser w))
     = [AudioRecorder.inactive]
  /\ AudioRecorder.intervals (AudioRecorder.browser w) = []
  /\ AudioRecorder.timerRef (AudioRecorder.refs w) = None
  /\ AudioRecorder.liveStreams (AudioRecorder.browser w) = []
  /\ AudioRecorder.parent w
     = [({| File.name := "recording-1700000000000.webm";
            File.type := "audio/webm"; File.size := 3100 |}, 0%nat)].
Proof. cbv zeta. repeat split. Qed.

(** The same callback, had it been handed the [stopRecording] of a render
    that shows the recording: at 300 it stops the recorder, queues its
    [stop] event and clears the timer. *)
Example current_stopRecording_would_stop :
  let w := AudioRecorder.run Samples.logArtifact
             (repeat (AudioRecorder.interval_fires 1) 300) Samples.recorderRecording in
  let w' := snd (AudioRecorder.intervalCallback true w) in
  AudioRecorder.recordingTime (AudioRecorder.ui w) = 300%Z
  /\ AudioRecorder.isRecording (AudioRecorder.ui w') = false
  /\ map AudioRecorder.MediaRecorder.state (AudioRecorder.recorders (AudioRecorder.browser w'))
     = [AudioRecorder.inactive]
  /\ AudioRecorder.stopQueue (AudioRecorder.browser w') = [0%nat]
  /\ AudioRecorder.intervals (AudioRecorder.browser w') = [].
Proof. vm_compute. repeat split. Qed.

(** C6, what the code does.  Recording is started from the button (so by a
    render in which [isRecording] is [false]) and the microphone is
    granted; then the timer fires [n] times, nobody clicking.  For every
    [n], also beyond 300: the component still shows a recording, the
    counter has stopped at 300, the recorder is still recording, the timer
    is still installed, the stream is still live, and no artifact has been
    produced.  The [stopRecording] that the timer calls is the one of the
    render that started the recording; it reads that render's
    [isRecording], which is [false], and returns at its guard. *)
Theorem auto_stop_never_fires (P : Type) (onAudioRecorded : File.t -> nat -> P -> P)
        (w : AudioRecorder.World P) (n : nat) :
  AudioRecorder.audioBlob (AudioRecorder.ui w) = None ->
  AudioRecorder.permissionGranted (AudioRecorder.ui w) = true ->
  AudioRecorder.isRecording (AudioRecorder.ui w) = false ->
  AudioRecorder.pendingUserMedia (AudioRecorder.browser w) = [] ->
  let b := AudioRecorder.browser w in
  let timer := AudioRecorder.nextTimer b in
  let w' := AudioRecorder.run onAudioRecorded
              (AudioRecorder.click_record :: AudioRecorder.getUserMedia_settles true
               :: repeat (AudioRecorder.interval_fires timer) n) w in
  AudioRecorder.isRecording (AudioRecorder.ui w') = true
  /\ AudioRecorder.recordingTime (AudioRecorder.ui w') = Z.min (Z.of_nat n) 300
  /\ nth_error (AudioRecorder.recorders (AudioRecorder.browser w'))
               (List.length (AudioRecorder.recorders b))
     = Some {| AudioRecorder.MediaRecorder.stream := AudioRecorder.nextStream b;
               AudioRecorder.MediaRecorder.state := AudioRecorder.recording |}
  /\ AudioRecorder.lookupInterval timer (AudioRecorder.intervals (AudioRecorder.browser w'))
     = Some false
  /\ AudioRecorder.timerRef (AudioRecorder.refs w') = Some timer
  /\ In (AudioRecorder.nextStream b) (AudioRecorder.liveStreams (AudioRecorder.browser w'))
  /\ AudioRecorder.audioBlob (AudioRecorder.ui w') = None
  /\ AudioRecorder.parent w' = AudioRecorder.parent w.
Proof.
  intros Hblob Hperm Hrec Hpend b timer w'.
  destruct (start_granted P onAudioRecorded w Hblob Hperm Hrec Hpend)
    as (S1 & S2 & S3 & S4 & S5 & S6 & S7 & S8 & S9).
  set (w1 := AudioRecorder.run onAudioRecorded
               [AudioRecorder.click_record; AudioRecorder.getUserMedia_settles true] w) in *.
  assert (Hw' : w' = AudioRecorder.run onAudioRecorded
                       (repeat (AudioRecorder.interval_fires timer) n) w1) by reflexivity.
  assert (Hl : AudioRecorder.lookupInterval timer
                 (AudioRecorder.intervals (AudioRecorder.browser w1)) = Some false).
  { rewrite S7. cbn. fold b. fold timer. now rewrite Nat.eqb_refl. }
  destruct (intervals_fire_stale P onAudioRecorded timer n 0%Z w1 Hl (Z.le_refl 0) S2)
    as (T1 & T2 & T3 & T4 & T5 & T6).
  rewrite <- Hw' in *.
  rewrite T1, T2, T3, T4, T5, T6.
  repeat split; try assumption.
  - rewrite S6. apply nth_error_last.
  - rewrite S5. now left.
Qed.

Lemma auto_stop_never_fires_witness :
  let w := AudioRecorder.run Samples.logArtifact
             (AudioRecorder.click_record :: AudioRecorder.getUserMedia_settles true
              :: repeat (AudioRecorder.interval_fires 1) 301)
             Samples.recorderReady in
  AudioRecorder.isRecording (AudioRecorder.ui w) = true
  /\ AudioRecorder.recordingTime (AudioRecorder.ui w) = 300%Z
  /\ AudioRecorder.parent w = [].
Proof.
  pose proof (auto_stop_never_fires _ Samples.logArtifact Samples.recorderReady 301
                eq_refl eq_refl eq_refl eq_refl) as H.
  cbv zeta in H. destruct H as (H1 & H2 & _ & _ & _ & _ & _ & H8).
  cbv zeta. split; [exact H1|]. split; [exact H2 | exact H8].
Defined.

(** Two clicks on "Start Recording" before the first microphone request is
    answered, on the freshly mounted recorder: both requests are granted,
    two streams are live, two recorders record, two timers run, and no
    error is shown. *)
Lemma double_start_counterexample :
  let w := AudioRecorder.run Samples.logArtifact
             [AudioRecorder.click_record; AudioRecorder.click_record;
              AudioRecorder.getUserMedia_settles true;
              AudioRecorder.getUserMedia_settles true]
             Samples.recorderReady in
  AudioRecorder.liveStreams (AudioRecorder.browser w) = [2; 1]%nat
  /\ map AudioRecorder.MediaRecorder.state (AudioRecorder.recorders (AudioRecorder.browser w))
     = [AudioRecorder.recording; AudioRecorder.recording]
  /\ map fst (AudioRecorder.intervals (AudioRecorder.browser w)) = [2; 1]%nat
  /\ AudioRecorder.streamRef (AudioRecorder.refs w) = Some 2%nat
  /\ AudioRecorder.error (AudioRecorder.ui w) = None.
Proof. cbv zeta. repeat split. Qed.

(** Once [isRecording] is [true], a click on the record button does not
    start anything: no stream is acquired and no microphone request is
    issued. *)
Theorem no_second_start_once_recording (P : Type)
        (onAudioRecorded : File.t -> nat -> P -> P) (w : AudioRecorder.World P) :
  AudioRecorder.isRecording (AudioRecorder.ui w) = true ->
  let w' := snd (AudioRecorder.step onAudioRecorded AudioRecorder.click_record w) in
  AudioRecorder.nextStream (AudioRecorder.browser w')
  = AudioRecorder.nextStream (AudioRecorder.browser w)
  /\ AudioRecorder.liveStreams (AudioRecorder.browser w')
     = AudioRecorder.liveStreams (AudioRecorder.browser w)
  /\ AudioRecorder.pendingUserMedia (AudioRecorder.browser w')
     = AudioRecorder.pendingUserMedia (AudioRecorder.browser w)
  /\ AudioRecorder.error (AudioRecorder.ui w') = AudioRecorder.error (AudioRecorder.ui w).
Proof.
  destruct w as [[rec time blob err perm] [mr chunks tr sr] b p]. cbn.
  intros ->. destruct b as [ns live recs sq nt ivs pend urls].
  destruct blob; [cbv; repeat split|].
  destruct perm; [|cbv; repeat split].
  destruct mr as [r|]; [|cbv; repeat split].
  cbv -[nth_error AudioRecorder.updateAt app filter].
  destruct (nth_error recs r) as [[s [|]]|]; destruct tr; repeat split.
Qed.

Lemma no_second_start_once_recording_witness :
  AudioRecorder.isRecording (AudioRecorder.ui Samples.recorderRecording) = true
  /\ AudioRecorder.liveStreams
       (AudioRecorder.browser
          (snd (AudioRecorder.step Samples.logArtifact AudioRecorder.click_record
                  Samples.recorderRecording)))
     = AudioRecorder.liveStreams (AudioRecorder.browser Samples.recorderRecording).
Proof.
  split; [reflexivity|].
  exact (proj1 (proj2 (no_second_start_once_recording _ Samples.logArtifact
                         Samples.recorderRecording eq_refl))).
Defined.

Lemma nth_error_middle {A : Type} (l rest : list A) (x : A) :
  nth_error (l ++ x :: rest) (List.length l) = Some x.
Proof. induction l as [|a l IH]; cbn; [reflexivity | exact IH]. Qed.

(** C7, what the code does.  [startRecording] has no guard, and
    [setIsRecording(true)] comes only after its [await]: a second click
    before the first microphone request is answered finds the button still
    carrying [startRecording].  Both calls run to their end: two streams
    are live, two recorders record, two timers run, no error is shown, and
    the three refs hold the second stream, recorder and timer only.  The
    first ones are out of reach: after "Stop Recording" and the [stop]
    event the second stream is released, while the first stream is still
    live, the first recorder still records and the first timer is still
    installed. *)
Theorem double_start_duplicates_capture (P : Type)
        (onAudioRecorded : File.t -> nat -> P -> P)
        (w : AudioRecorder.World P) (now : Z) :
  AudioRecorder.audioBlob (AudioRecorder.ui w) = None ->
  AudioRecorder.permissionGranted (AudioRecorder.ui w) = true ->
  AudioRecorder.isRecording (AudioRecorder.ui w) = false ->
  AudioRecorder.pendingUserMedia (AudioRecorder.browser w) = [] ->
  AudioRecorder.stopQueue (AudioRecorder.browser w) = [] ->
  let b := AudioRecorder.browser w in
  let first := AudioRecorder.nextStream b in
  let second := S first in
  let started := AudioRecorder.run onAudioRecorded
                   [AudioRecorder.click_record; AudioRecorder.click_record;
                    AudioRecorder.getUserMedia_settles true;
                    AudioRecorder.getUserMedia_settles true] w in
  let stopped := AudioRecorder.run onAudioRecorded
                   [AudioRecorder.click_record; AudioRecorder.stop_fires now] started in
  (AudioRecorder.liveStreams (AudioRecorder.browser started)
   = second :: first :: AudioRecorder.liveStreams b
   /\ AudioRecorder.recorders (AudioRecorder.browser started)
      = (AudioRecorder.recorders b
         ++ [{| AudioRecorder.MediaRecorder.stream := first;
                AudioRecorder.MediaRecorder.state := AudioRecorder.recording |};
             {| AudioRecorder.MediaRecorder.stream := second;
                AudioRecorder.MediaRecorder.state := AudioRecorder.recording |}])%list
   /\ AudioRecorder.intervals (AudioRecorder.browser started)
      = (S (AudioRecorder.nextTimer b), false) :: (AudioRecorder.nextTimer b, false)
        :: AudioRecorder.intervals b
   /\ AudioRecorder.streamRef (AudioRecorder.refs started) = Some second
   /\ AudioRecorder.mediaRecorderRef (AudioRecorder.refs started)
      = Some (S (List.length (AudioRecorder.recorders b)))
   /\ AudioRecorder.timerRef (AudioRecorder.refs started)
      = Some (S (AudioRecorder.nextTimer b))
   /\ AudioRecorder.isRecording (AudioRecorder.ui started) = true
   /\ AudioRecorder.error (AudioRecorder.ui started) = None
   /\ AudioRecorder.parent started = AudioRecorder.parent w)
  /\ (AudioRecorder.isRecording (AudioRecorder.ui stopped) = false
      /\ ~ In second (AudioRecorder.liveStreams (AudioRecorder.browser stopped))
      /\ In first (AudioRecorder.liveStreams (AudioRecorder.browser stopped))
      /\ nth_error (AudioRecorder.recorders (AudioRecorder.browser stopped))
                   (List.length (AudioRecorder.recorders b))
         = Some {| AudioRecorder.MediaRecorder.stream := first;
                   AudioRecorder.MediaRecorder.state := AudioRecorder.recording |}
      /\ AudioRecorder.lookupInterval (AudioRecorder.nextTimer b)
           (AudioRecorder.intervals (AudioRecorder.browser stopped)) = Some false
      /\ AudioRecorder.timerRef (AudioRecorder.refs stopped) = None).
Proof.
  destruct w as [[rec time blob err perm] [mr chunks tr sr] b p]. cbn.
  intros -> -> -> Hq Hs.
  destruct b as [ns live recs sq nt ivs pend urls]. cbn in Hq, Hs. subst pend sq.
  repeat (progress (cbv -[AudioRecorder.updateAt List.length app nth_error filter In
                          AudioRecorder.lookupInterval AudioRecorder.newBlob String.append
                          NilZero.string_of_int Z.to_int Nat.eqb];
                    cbn [app]; rewrite ?updateAt_last, ?nth_error_last)).
  assert (Hns : Nat.eqb ns (S ns) = false) by (apply Nat.eqb_neq; lia).
  assert (Hnt : Nat.eqb nt (S nt) = false) by (apply Nat.eqb_neq; lia).
  split; [repeat split|repeat split].
  - now rewrite <- app_assoc.
  - rewrite length_app. cbn. f_equal. lia.
  - intros Hin. apply filter_In in Hin. destruct Hin as [_ Hne].
    now rewrite Nat.eqb_refl in Hne.
  - apply filter_In. split; [right; now left | now rewrite Hns].
  - rewrite <- app_assoc. apply nth_error_middle.
  - cbn [filter]. rewrite Nat.eqb_refl, Hnt. cbn [AudioRecorder.lookupInterval].
    now rewrite Nat.eqb_refl.
Qed.

Lemma double_start_duplicates_capture_witness :
  AudioRecorder.isRecording (AudioRecorder.ui Samples.recorderReady) = false
  /\ AudioRecorder.liveStreams
       (AudioRecorder.browser
          (AudioRecorder.run Samples.logArtifact
             [AudioRecorder.click_record; AudioRecorder.click_record;
              AudioRecorder.getUserMedia_settles true;
              AudioRecorder.getUserMedia_settles true]
             Samples.recorderReady))
     = [2; 1]%nat.
Proof.
  split; [reflexivity|].
  exact (proj1 (proj1
           (double_start_duplicates_capture _ Samples.logArtifact Samples.recorderReady
              1700000000000 eq_refl eq_refl eq_refl eq_refl eq_refl))).
Defined.

(* ------------------------------------------------------------------ *)
(** * Further properties *)

(** ** Strings *)

Lemma string_length_app (a b : string) :
  String.length (a ++ b) = (String.length a + String.length b)%nat.
Proof. induction a as [|c a IH]; cbn; [|rewrite IH]; reflexivity. Qed.

Lemma substring_skip (a b : string) (m : nat) :
  substring (String.length a) m (a ++ b) = substring 0 m b.
Proof. induction a as [|c a IH]; cbn; [reflexivity | exact IH]. Qed.

Lemma substring_full (b : string) : substring 0 (String.length b) b = b.
Proof. induction b as [|c b IH]; cbn; [|rewrite IH]; reflexivity. Qed.

Lemma substring_split (s : string) (n m : nat) :
  (n + m)%nat = String.length s ->
  s = (substring 0 n s ++ substring n m s)%string.
Proof.
  revert s. induction n as [|n IH]; intros s H.
  - cbn in H. subst m. rewrite substring_full.
    destruct s; reflexivity.
  - destruct s as [|c s]; [discriminate|]. cbn in H. injection H as H.
    cbn. f_equal. now apply IH.
Qed.

Lemma toLowerCase_length (s : string) :
  String.length (AudioUpload.toLowerCase s) = String.length s.
Proof. induction s as [|c s IH]; cbn; [|rewrite IH]; reflexivity. Qed.

Lemma toLowerCase_app (a b : string) :
  AudioUpload.toLowerCase (a ++ b)
  = (AudioUpload.toLowerCase a ++ AudioUpload.toLowerCase b)%string.
Proof. induction a as [|c a IH]; cbn; [|rewrite IH]; reflexivity. Qed.

Lemma toLowerCase_substring (s : string) (n m : nat) :
  AudioUpload.toLowerCase (substring n m s) = substring n m (AudioUpload.toLowerCase s).
Proof.
  revert n m. induction s as [|c s IH]; intros n m.
  - destruct n, m; reflexivity.
  - destruct n as [|n]; cbn.
    + destruct m as [|m]; cbn; [reflexivity|]. now rewrite IH.
    + apply IH.
Qed.

(** Only the full stop lower-cases to the full stop. *)
Lemma lowerChar_dot (c : ascii) : AudioUpload.lowerChar c = "."%char -> c = "."%char.
Proof.
  destruct c as [b0 b1 b2 b3 b4 b5 b6 b7].
  destruct b0, b1, b2, b3, b4, b5, b6, b7; vm_compute; intros H;
    first [reflexivity | discriminate H].
Qed.

Lemma endsWith_lower_intro (stem tail : string) :
  AudioUpload.endsWith (AudioUpload.toLowerCase (stem ++ tail)) (AudioUpload.toLowerCase tail)
  = true.
Proof.
  unfold AudioUpload.endsWith. rewrite toLowerCase_app, string_length_app.
  apply andb_true_intro. split.
  - apply Nat.leb_le. lia.
  - replace (String.length (AudioUpload.toLowerCase stem)
             + String.length (AudioUpload.toLowerCase tail)
             - String.length (AudioUpload.toLowerCase tail))%nat
      with (String.length (AudioUpload.toLowerCase stem)) by lia.
    rewrite substring_skip, substring_full. apply String.eqb_refl.
Qed.

Lemma endsWith_lower_elim (fileName suffix : string) :
  AudioUpload.endsWith (AudioUpload.toLowerCase fileName) suffix = true ->
  exists stem tail,
    fileName = (stem ++ tail)%string /\ AudioUpload.toLowerCase tail = suffix.
Proof.
  unfold AudioUpload.endsWith. rewrite toLowerCase_length. intros H.
  apply andb_prop in H. destruct H as [Hle Heq].
  apply Nat.leb_le in Hle. apply String.eqb_eq in Heq.
  set (n := (String.length fileName - String.length suffix)%nat) in *.
  exists (substring 0 n fileName), (substring n (String.length suffix) fileName).
  split.
  - apply substring_split. unfold n. lia.
  - now rewrite toLowerCase_substring.
Qed.

(** ** The upload validator, continued *)

(** X1.  The extension test of [validateFile] accepts exactly the names
    that end in a full stop followed by wav, mp3 or flac in any mix of
    upper and lower case. *)
Theorem matchesExtension_iff (fileName : string) :
  AudioUpload.matchesExtension fileName = true
  <-> exists stem ext,
        fileName = (stem ++ "." ++ ext)%string
        /\ In (AudioUpload.toLowerCase ext) ["wav"; "mp3"; "flac"]%string.
Proof.
  unfold AudioUpload.matchesExtension. rewrite existsb_exists. split.
  - intros (e & He & Hends).
    apply endsWith_lower_elim in Hends. destruct Hends as (stem & tail & -> & Hl).
    destruct tail as [|c ext]; [discriminate Hl|].
    cbn in Hl. injection Hl as Hc Hext.
    apply lowerChar_dot in Hc. subst c.
    exists stem, ext. split; [reflexivity|]. now rewrite Hext.
  - intros (stem & ext & -> & Hin).
    exists (AudioUpload.toLowerCase ext). split; [exact Hin|].
    change ("." ++ AudioUpload.toLowerCase ext)%string
      with (AudioUpload.toLowerCase ("." ++ ext)).
    apply endsWith_lower_intro.
Qed.


Lemma revoke_fresh (r : URL.registry) :
  urlsWellFormed r ->
  URL.live (URL.revokeObjectURL (URL.next r) (snd (URL.createObjectURL r))) = URL.live r.
Proof.
  unfold urlsWellFormed. destruct r as [n l]. cbn. intros Hwf.
  rewrite Nat.eqb_refl. cbn.
  induction Hwf as [|u l Hu Hl IH]; cbn; [reflexivity|].
  destruct (Nat.eqb_spec u n); [lia|]. cbn. now rewrite IH.
Qed.

(** X3.  The object URL that [validateFile] creates for its probe is
    revoked on every run in which the probe reports a duration, accepted or
    not; the checks before the probe create none.  The one run that leaves
    a URL behind is the probe firing [error]: that URL stays live. *)
Theorem validateFile_object_urls (P : Type) (file : File.t) (ev : MediaEvent)
        (w : AudioUpload.World P) :
  urlsWellFormed (AudioUpload.urls w) ->
  let r := AudioUpload.validateFile file ev w in
  URL.live (AudioUpload.urls (snd r))
  = match ev with
    | loadedmetadata _ => URL.live (AudioUpload.urls w)
    | error_event =>
        if AudioUpload.formatAccepted file
           && (File.size file <=? AudioUpload.MAX_FILE_SIZE)%Z
        then URL.next (AudioUpload.urls w) :: URL.live (AudioUpload.urls w)
        else URL.live (AudioUpload.urls w)
    end.
Proof.
  intros Hwf. pose proof (revoke_fresh _ Hwf) as Hrev.
  unfold_upload. rewrite format_guard.
  destruct (AudioUpload.formatAccepted file); cbn [negb andb];
    [|cbn; now destruct ev].
  rewrite Z.leb_antisym.
  destruct (AudioUpload.MAX_FILE_SIZE <? File.size file)%Z; cbn [negb];
    [cbn; now destruct ev|].
  destruct ev as [d|]; unfold AudioUpload.MAX_DURATION; cbn; [|reflexivity].
  destruct (300 <? d)%float; cbn; [exact Hrev|].
  destruct (d <? 0.5)%float; cbn; exact Hrev.
Qed.

Lemma validateFile_object_urls_witness :
  urlsWellFormed (AudioUpload.urls Samples.uploadWorld)
  /\ URL.live (AudioUpload.urls
                 (snd (AudioUpload.validateFile Samples.wavFile error_event
                         Samples.uploadWorld)))
     = [0%nat].
Proof.
  assert (Hwf : urlsWellFormed (AudioUpload.urls Samples.uploadWorld)) by constructor.
  split; [exact Hwf|].
  exact (validateFile_object_urls App.State Samples.wavFile error_event
           Samples.uploadWorld Hwf).
Defined.



(* ------------------------------------------------------------------ *)
(** ** The App through its events *)

(** What every event keeps: the ledger holds at most ten entries, and
    [isAnalyzing] is [true] exactly while one call of [handleAnalyze] is
    waiting, never two. *)
Lemma step_keeps_ledger_cap (e : AppRun.Event) (w : AppRun.World) :
  (List.length (App.history (AppRun.st w)) <= 10)%nat ->
  (List.length (App.history (AppRun.st (AppRun.step e w))) <= 10)%nat.
Proof.
  intros H. destruct w as [s q]. destruct e; cbn -[firstn] in *.
  - destruct (App.view s); cbn; exact H.
  - exact H.
  - exact H.
  - destruct (AppRun.analyzeEnabled s); [|exact H].
    unfold App.handleAnalyze_start. destruct (App.audioFile s); cbn; exact H.
  - destruct q as [|f q]; [exact H|]. cbn -[firstn]. rewrite length_firstn. lia.
  - destruct (App.view s); cbn; exact H.
Qed.

Lemma step_keeps_single_call (e : AppRun.Event) (w : AppRun.World) :
  App.isAnalyzing (AppRun.st w) = negb (Nat.eqb (List.length (AppRun.pending w)) 0)
  /\ (List.length (AppRun.pending w) <= 1)%nat ->
  let w' := AppRun.step e w in
  App.isAnalyzing (AppRun.st w') = negb (Nat.eqb (List.length (AppRun.pending w')) 0)
  /\ (List.length (AppRun.pending w') <= 1)%nat.
Proof.
  intros [Ha Hq]. destruct w as [s q]. destruct e; cbn in *.
  - destruct (App.view s); cbn; split; assumption.
  - split; assumption.
  - split; assumption.
  - destruct (AppRun.analyzeEnabled s) eqn:En; [|split; assumption].
    assert (E : App.isAnalyzing s = false).
    { unfold AppRun.analyzeEnabled in En.
      destruct (App.view s), (App.audioUrl s), (App.isAnalyzing s);
        cbn in En; congruence. }
    rewrite E in Ha. destruct q as [|f q]; [|cbn in Ha; discriminate].
    unfold App.handleAnalyze_start. destruct (App.audioFile s); cbn;
      (split; [first [reflexivity | exact E] | lia]).
  - destruct q as [|f [|g q]]; cbn in *;
      [split; assumption | split; [reflexivity | lia] | lia].
  - destruct (App.view s); cbn; split; assumption.
Qed.

(** X5.  In every state the App can reach, the history holds at most ten
    entries. *)
Theorem ledger_never_exceeds_ten (es : list AppRun.Event) :
  (List.length (App.history (AppRun.st (AppRun.run es AppRun.initial))) <= 10)%nat.
Proof.
  unfold AppRun.run.
  assert (H0 : (List.length (App.history (AppRun.st AppRun.initial)) <= 10)%nat)
    by (cbn; lia).
  revert H0. generalize AppRun.initial. induction es as [|e es IH]; intros w Hw.
  - exact Hw.
  - cbn. apply IH. now apply step_keeps_ledger_cap.
Qed.

(** X6.  In every state the App can reach, at most one call of
    [handleAnalyze] is waiting for its timer, and [isAnalyzing] is [true]
    exactly while one is: the disabled "Analyze" button keeps a second call
    from starting, whatever is selected or reset in between. *)
Theorem at_most_one_analysis_outstanding (es : list AppRun.Event) :
  let w := AppRun.run es AppRun.initial in
  (List.length (AppRun.pending w) <= 1)%nat
  /\ App.isAnalyzing (AppRun.st w) = negb (Nat.eqb (List.length (AppRun.pending w)) 0).
Proof.
  unfold AppRun.run.
  assert (H0 : App.isAnalyzing (AppRun.st AppRun.initial)
               = negb (Nat.eqb (List.length (AppRun.pending AppRun.initial)) 0)
               /\ (List.length (AppRun.pending AppRun.initial) <= 1)%nat)
    by (cbn; split; [reflexivity | lia]).
  revert H0. generalize AppRun.initial. induction es as [|e es IH]; intros w Hw.
  - cbn. split; apply Hw.
  - cbn. apply IH. now apply step_keeps_single_call.
Qed.

Lemma in_firstn {A : Type} (n : nat) (l : list A) (x : A) :
  In x (firstn n l) -> In x l.
Proof.
  intros H. rewrite <- (firstn_skipn n l). apply in_or_app. now left.
Qed.

(** A property of the entries that [handleAnalyze] writes is a property of
    every entry of the history. *)
Lemma step_keeps_entries (e : AppRun.Event) (w : AppRun.World)
      (ok : EmotionPrediction.t -> Prop) :
  (forall file random now,
     (forall n, 0 <= random n < 1) ->
     ok {| EmotionPrediction.emotion := App.primaryEmotion random;
           EmotionPrediction.confidence := App.primaryConfidence random;
           EmotionPrediction.timestamp := now;
           EmotionPrediction.audioName := Some (File.name file) |}) ->
  AppRun.randomInRange e ->
  Forall ok (App.history (AppRun.st w)) ->
  Forall ok (App.history (AppRun.st (AppRun.step e w))).
Proof.
  intros Hok He H. destruct w as [s q]. destruct e; cbn -[firstn] in *.
  - destruct (App.view s); cbn; exact H.
  - exact H.
  - exact H.
  - destruct (AppRun.analyzeEnabled s); [|exact H].
    unfold App.handleAnalyze_start. destruct (App.audioFile s); cbn; exact H.
  - destruct q as [|f q]; [exact H|]. cbn -[firstn]. constructor.
    + now apply Hok.
    + apply Forall_forall. intros x Hx. rewrite Forall_forall in H.
      apply H. eapply in_firstn; eassumption.
  - destruct (App.view s); cbn; exact H.
Qed.

(** X7.  As long as [Math.random()] stays in [0, 1), every entry of the
    history, in every state the App can reach, carries a label of the
    vocabulary, a confidence between 65 and 95, and a file name. *)
Theorem ledger_entries_well_formed (es : list AppRun.Event) :
  Forall AppRun.randomInRange es ->
  Forall (fun entry =>
            In (EmotionPrediction.emotion entry) App.emotions
            /\ 65 <= EmotionPrediction.confidence entry <= 95
            /\ EmotionPrediction.audioName entry <> None)
         (App.history (AppRun.st (AppRun.run es AppRun.initial))).
Proof.
  unfold AppRun.run.
  assert (H0 : Forall (fun entry =>
                         In (EmotionPrediction.emotion entry) App.emotions
                         /\ 65 <= EmotionPrediction.confidence entry <= 95
                         /\ EmotionPrediction.audioName entry <> None)
                      (App.history (AppRun.st AppRun.initial))) by constructor.
  revert H0. generalize AppRun.initial.
  induction es as [|e es IH]; intros w Hw Hes; [exact Hw|].
  inversion Hes as [|? ? He Hes']; subst. cbn. apply IH; [|exact Hes'].
  apply step_keeps_entries; [|exact He|exact Hw].
  intros file random now Hr. cbn. split; [|split].
  - now apply primaryEmotion_in_vocabulary.
  - pose proof (primaryConfidence_range random Hr). lra.
  - discriminate.
Qed.

Lemma ledger_entries_well_formed_witness :
  Forall AppRun.randomInRange Samples.session
  /\ Forall (fun entry =>
               In (EmotionPrediction.emotion entry) App.emotions
               /\ 65 <= EmotionPrediction.confidence entry <= 95
               /\ EmotionPrediction.audioName entry <> None)
            (App.history (AppRun.st (AppRun.run Samples.session AppRun.initial))).
Proof.
  assert (H : Forall AppRun.randomInRange Samples.session).
  { repeat constructor; apply draws_range. }
  split; [exact H|].
  exact (ledger_entries_well_formed Samples.session H).
Defined.

(* ------------------------------------------------------------------ *)
(** ** The result view and the history panel *)

Lemma StronglySorted_app_cross {A : Type} (R : A -> A -> Prop) (l1 l2 : list A) :
  StronglySorted R (l1 ++ l2) ->
  forall a b, In a l1 -> In b l2 -> R a b.
Proof.
  induction l1 as [|x l1 IH]; cbn; intros Hs a b Ha Hb; [destruct Ha|].
  inversion Hs as [|? ? Hs' Hall]; subst.
  destruct Ha as [->|Ha].
  - rewrite Forall_forall in Hall. apply Hall. apply in_or_app. now right.
  - now apply IH.
Qed.

Lemma all_length (random : nat -> Q) :
  (forall n, 0 <= random n < 1) ->
  List.length (EmotionResult.all (App.mockResult random)) = 7%nat.
Proof.
  intros Hr. rewrite <- (length_map Score.emotion).
  now rewrite (Permutation_length (all_labels_perm random Hr)).
Qed.

(** The sorted list starts with the primary entry: whatever stands first is
    at least as high as the primary entry, and only the primary entry is. *)
Lemma all_head (random : nat -> Q) :
  (forall n, 0 <= random n < 1) ->
  hd_error (EmotionResult.all (App.mockResult random)) = Some (App.primaryEntry random).
Proof.
  intros Hr.
  pose proof (primaryConfidence_range random Hr) as Hp.
  pose proof (primaryEntry_in_all random) as Hin.
  pose proof (all_cases random Hr) as Hcases.
  pose proof (sort_byConfidenceDesc_sorted
                (App.primaryEntry random :: App.otherEmotions random)) as Hsorted.
  change (sort App.byConfidenceDesc (App.primaryEntry random :: App.otherEmotions random))
    with (EmotionResult.all (App.mockResult random)) in Hsorted.
  destruct (EmotionResult.all (App.mockResult random)) as [|h t]; [destruct Hin|]. cbn.
  destruct (Hcases h (or_introl eq_refl)) as [->|Hh]; [reflexivity|].
  destruct Hin as [->|Hin]; [reflexivity|].
  inversion Hsorted as [|? ? _ Hall]; subst.
  rewrite Forall_forall in Hall. specialize (Hall _ Hin).
  unfold confidenceDesc in Hall. cbn in Hall. lra.
Qed.

(** X8.  The "Detailed Emotion Analysis" block shows exactly three entries,
    the first being the primary one (the row tagged "Primary"), and none of
    the four entries it leaves out has a higher confidence than any of the
    three it shows. *)
Theorem topThree_are_the_top (random : nat -> Q) :
  (forall n, 0 <= random n < 1) ->
  let result := App.mockResult random in
  let shown := EmotionResults.topThree result in
  List.length shown = 3%nat
  /\ hd_error shown = Some (EmotionResult.primary result)
  /\ List.length (skipn 3 (EmotionResult.all result)) = 4%nat
  /\ (forall a b, In a shown -> In b (skipn 3 (EmotionResult.all result)) ->
        Score.confidence b <= Score.confidence a).
Proof.
  intros Hr result shown.
  pose proof (all_length random Hr) as Hlen.
  pose proof (sort_byConfidenceDesc_sorted
                (App.primaryEntry random :: App.otherEmotions random)) as Hsorted.
  pose proof (all_head random Hr) as Hhd.
  change (sort App.byConfidenceDesc (App.primaryEntry random :: App.otherEmotions random))
    with (EmotionResult.all result) in Hsorted.
  fold result in Hlen, Hhd. unfold shown, EmotionResults.topThree.
  change (EmotionResult.primary result) with (App.primaryEntry random).
  split; [|split; [|split]].
  - rewrite length_firstn, Hlen. reflexivity.
  - destruct (EmotionResult.all result) as [|h t]; [discriminate Hhd|]. exact Hhd.
  - rewrite length_skipn, Hlen. reflexivity.
  - intros a b Ha Hb.
    rewrite <- (firstn_skipn 3 (EmotionResult.all result)) in Hsorted.
    exact (StronglySorted_app_cross confidenceDesc _ _ Hsorted a b Ha Hb).
Qed.

Lemma topThree_are_the_top_witness :
  (forall n, 0 <= Samples.draws n < 1)
  /\ map Score.emotion (EmotionResults.topThree (App.mockResult Samples.draws))
     = ["angry"; "sad"; "fearful"]%string
  /\ List.length (EmotionResults.topThree (App.mockResult Samples.draws)) = 3%nat.
Proof.
  split; [exact draws_range|]. split; [reflexivity|].
  exact (proj1 (topThree_are_the_top Samples.draws draws_range)).
Defined.

(** X9.  Once five or more results have been recorded, into whatever
    ledger, the history panel lists exactly the last five recorded, newest
    first. *)
Theorem panel_shows_five_newest (entries ledger : list EmotionPrediction.t) :
  (5 <= List.length entries)%nat ->
  HistoryPanel.rows (App.recordAll entries ledger) = Some (firstn 5 (rev entries)).
Proof.
  intros Hlen. destruct entries as [|e es]; [cbn in Hlen; lia|].
  rewrite recordAll_nonempty.
  assert (Hrev : (5 <= List.length (rev (e :: es)))%nat) by (now rewrite length_rev).
  set (l := rev (e :: es)) in *.
  assert (Hne : firstn 10 (l ++ ledger) <> []).
  { destruct l as [|x l']; [cbn in Hrev; lia|]. cbn. discriminate. }
  unfold HistoryPanel.rows.
  destruct (firstn 10 (l ++ ledger)) as [|x t] eqn:E; [congruence|].
  rewrite <- E, firstn_firstn, firstn_app. cbn [Nat.min].
  replace (5 - List.length l)%nat with 0%nat by lia.
  now rewrite firstn_O, app_nil_r.
Qed.

Lemma panel_shows_five_newest_witness :
  (5 <= List.length Samples.elevenPredictions)%nat
  /\ HistoryPanel.rows (App.recordAll Samples.elevenPredictions [])
     = Some (map Samples.prediction [11; 10; 9; 8; 7]%Z).
Proof.
  assert (H : (5 <= List.length Samples.elevenPredictions)%nat) by (cbn; lia).
  split; [exact H|].
  exact (panel_shows_five_newest Samples.elevenPredictions [] H).
Defined.

(** X10.  The age shown for an entry: "Just now" below one minute (also for
    an entry dated in the future); otherwise whole minutes from 1 to 59,
    whole hours from 1 to 23, or whole days from 1 on, each rounded down. *)
Theorem formatTimeAgo_units (now date : Z) :
  let seconds := ((now - date) / 1000)%Z in
  ((seconds < 60)%Z -> HistoryPanel.formatTimeAgo now date = "Just now"%string)
  /\ ((60 <= seconds < 3600)%Z ->
      exists n, HistoryPanel.formatTimeAgo now date = (toString n ++ "m ago")%string
                /\ (1 <= n <= 59)%Z /\ (60 * n <= seconds < 60 * (n + 1))%Z)
  /\ ((3600 <= seconds < 86400)%Z ->
      exists n, HistoryPanel.formatTimeAgo now date = (toString n ++ "h ago")%string
                /\ (1 <= n <= 23)%Z /\ (3600 * n <= seconds < 3600 * (n + 1))%Z)
  /\ ((86400 <= seconds)%Z ->
      exists n, HistoryPanel.formatTimeAgo now date = (toString n ++ "d ago")%string
                /\ (1 <= n)%Z /\ (86400 * n <= seconds < 86400 * (n + 1))%Z).
Proof.
  intros seconds. unfold HistoryPanel.formatTimeAgo. fold seconds.
  repeat split.
  - intros H. apply Z.ltb_lt in H. now rewrite H.
  - intros [H1 H2]. exists (seconds / 60)%Z.
    destruct (Z.ltb_spec seconds 60); [lia|].
    destruct (Z.ltb_spec seconds 3600); [|lia].
    pose proof (Z.div_mod seconds 60 ltac:(lia)).
    pose proof (Z.mod_pos_bound seconds 60 ltac:(lia)).
    repeat split; lia.
  - intros [H1 H2]. exists (seconds / 3600)%Z.
    destruct (Z.ltb_spec seconds 60); [lia|].
    destruct (Z.ltb_spec seconds 3600); [lia|].
    destruct (Z.ltb_spec seconds 86400); [|lia].
    pose proof (Z.div_mod seconds 3600 ltac:(lia)).
    pose proof (Z.mod_pos_bound seconds 3600 ltac:(lia)).
    repeat split; lia.
  - intros H1. exists (seconds / 86400)%Z.
    destruct (Z.ltb_spec seconds 60); [lia|].
    destruct (Z.ltb_spec seconds 3600); [lia|].
    destruct (Z.ltb_spec seconds 86400); [lia|].
    pose proof (Z.div_mod seconds 86400 ltac:(lia)).
    pose proof (Z.mod_pos_bound seconds 86400 ltac:(lia)).
    repeat split; lia.
Qed.

(** Printing an integer and reading it back. *)
Lemma toString_reads_back (z : Z) :
  option_map Z.of_int (NilZero.int_of_string (toString z)) = Some z.
Proof.
  unfold toString. rewrite NilZero.isi.
  - cbn. now rewrite DecimalZ.of_to.
  - destruct z as [|p|p]; cbn; try discriminate.
    intros [= E]. now apply (Unsigned.to_uint_nonnil p).
  - destruct z as [|p|p]; cbn; try discriminate.
    intros [= E]. now apply (Unsigned.to_uint_nonnil p).
Qed.

Lemma formatTimeAgo_units_witness :
  HistoryPanel.formatTimeAgo 1700000125000 1700000000000 = "2m ago"%string
  /\ exists n, HistoryPanel.formatTimeAgo 1700000125000 1700000000000
               = (toString n ++ "m ago")%string
               /\ (1 <= n <= 59)%Z
               /\ (60 * n <= (1700000125000 - 1700000000000) / 1000 < 60 * (n + 1))%Z.
Proof.
  split; [reflexivity|].
  apply (proj1 (proj2 (formatTimeAgo_units 1700000125000 1700000000000))).
  vm_compute. split; [discriminate | reflexivity].
Defined.

(** The two-digit field of the clock, checked on every value it can take. *)
Lemma seconds_field_table :
  forallb (fun k =>
             let ss := padStart 2 "0" (toString (Z.of_nat k)) in
             Nat.eqb (String.length ss) 2
             && match NilZero.int_of_string ss with
                | Some d => Z.eqb (Z.of_int d) (Z.of_nat k)
                | None => false
                end)
          (seq 0 60) = true.
Proof. vm_compute. reflexivity. Qed.

(** X11.  For every number of seconds the counter of the recorder can hold
    (0 to 300) the clock reads "minutes:seconds" with the seconds always on
    two digits; the two fields read back as the quotient and the remainder
    by 60, so the clock determines the number of seconds. *)
Theorem formatTime_fields (seconds : Z) :
  (0 <= seconds <= AudioRecorder.MAX_RECORDING_TIME)%Z ->
  exists ss,
    RecorderClock.formatTime seconds = (toString (seconds / 60) ++ ":" ++ ss)%string
    /\ String.length ss = 2%nat
    /\ option_map Z.of_int (NilZero.int_of_string ss) = Some (seconds mod 60)%Z
    /\ option_map Z.of_int (NilZero.int_of_string (toString (seconds / 60)))
       = Some (seconds / 60)%Z
    /\ (0 <= seconds / 60 <= 5)%Z.
Proof.
  unfold AudioRecorder.MAX_RECORDING_TIME. intros [Hs Hmax].
  unfold RecorderClock.formatTime. cbv zeta.
  rewrite (Z.rem_mod_nonneg seconds 60 Hs ltac:(lia)).
  pose proof (Z.mod_pos_bound seconds 60 ltac:(lia)) as Hb.
  set (k := (seconds mod 60)%Z) in *.
  exists (padStart 2 "0" (toString k)).
  pose proof seconds_field_table as T. rewrite forallb_forall in T.
  specialize (T (Z.to_nat k)). rewrite Z2Nat.id in T by lia.
  assert (Hin : In (Z.to_nat k) (seq 0 60)) by (apply in_seq; lia).
  specialize (T Hin). cbv zeta in T. apply andb_prop in T. destruct T as [T1 T2].
  split; [reflexivity|]. split; [now apply Nat.eqb_eq|]. split; [|split].
  - destruct (NilZero.int_of_string (padStart 2 "0" (toString k))) as [d|];
      [|discriminate]. apply Z.eqb_eq in T2. cbn. now rewrite T2.
  - apply toString_reads_back.
  - split; [apply Z.div_pos; lia | apply Z.div_le_upper_bound; lia].
Qed.

Lemma formatTime_fields_witness :
  (0 <= 300 <= AudioRecorder.MAX_RECORDING_TIME)%Z
  /\ RecorderClock.formatTime 300 = "5:00"%string
  /\ exists ss,
       RecorderClock.formatTime 300 = (toString (300 / 60) ++ ":" ++ ss)%string
       /\ String.length ss = 2%nat
       /\ option_map Z.of_int (NilZero.int_of_string ss) = Some (300 mod 60)%Z
       /\ option_map Z.of_int (NilZero.int_of_string (toString (300 / 60)))
          = Some (300 / 60)%Z
       /\ (0 <= 300 / 60 <= 5)%Z.
Proof.
  assert (H : (0 <= 300 <= AudioRecorder.MAX_RECORDING_TIME)%Z)
    by (unfold AudioRecorder.MAX_RECORDING_TIME; lia).
  split; [exact H|]. split; [reflexivity|].
  exact (formatTime_fields 300 H).
Defined.

(* ------------------------------------------------------------------ *)
(** ** The player's volume controls *)

(** A double in [0, 1] is equal to itself: it is not NaN. *)
Lemma in_unit_range_eqb_refl (v : float) :
  (0 <=? v)%float = true -> (v =? v)%float = true.
Proof.
  rewrite leb_spec, FloatAxioms.eqb_spec.
  let z := eval vm_compute in (Prim2SF 0) in change (Prim2SF 0) with z.
  destruct (Prim2SF v) as [s|s| |s m e]; unfold SFleb, SFeqb, SFcompare;
    try (destruct s; reflexivity); try discriminate.
  intros _. rewrite Z.compare_refl.
  change (PosDef.Pos.compare_cont Eq m m) with (Pos.compare m m).
  rewrite Pos.compare_refl. now destruct s.
Qed.


Lemma step_keeps_volumeInvariant (e : AudioPlayer.Event) (w : AudioPlayer.World) :
  volumeInvariant w -> volumeInvariant (AudioPlayer.step e w).
Proof.
  intros (audio & Href & Hrange & Hmuted & Hsame).
  destruct w as [[v muted wf] ref]. cbn in *. subst ref.
  destruct e as [vol|]; cbn.
  - unfold AudioPlayer.handleVolumeChange, AudioPlayer.HTMLAudioElement.setVolume. cbn.
    destruct ((0 <=? vol) && (vol <=? 1))%float eqn:E; cbn.
    + exists {| AudioPlayer.HTMLAudioElement.volume := vol |}. cbn.
      split; [reflexivity|]. split; [exact E|]. split; reflexivity.
    + exists audio. cbn. split; [reflexivity|]. split; [exact Hrange|].
      split; assumption.
  - unfold AudioPlayer.toggleMute, AudioPlayer.HTMLAudioElement.setVolume. cbn.
    destruct muted; cbn.
    + unfold AudioPlayer.orHalf.
      destruct ((v =? 0) || is_nan v)%float eqn:E; cbn.
      * exists {| AudioPlayer.HTMLAudioElement.volume := 0.5 |}. cbn.
        split; [reflexivity|]. split; [reflexivity|]. split; reflexivity.
      * rewrite Hrange. cbn. apply orb_false_elim in E. destruct E as [E _].
        exists {| AudioPlayer.HTMLAudioElement.volume := v |}. cbn.
        split; [reflexivity|]. split; [exact Hrange|]. split; [now rewrite E|reflexivity].
    + exists {| AudioPlayer.HTMLAudioElement.volume := 0 |}. cbn.
      split; [reflexivity|]. split; [exact Hrange|]. split; [reflexivity|discriminate].
Qed.

Lemma run_keeps_volumeInvariant (es : list AudioPlayer.Event) (w : AudioPlayer.World) :
  volumeInvariant w -> volumeInvariant (AudioPlayer.run es w).
Proof.
  unfold AudioPlayer.run. revert w.
  induction es as [|e es IH]; intros w Hw; [exact Hw|].
  cbn. apply IH. now apply step_keeps_volumeInvariant.
Qed.

Lemma mounted_volumeInvariant : volumeInvariant AudioPlayer.mounted.
Proof.
  exists {| AudioPlayer.HTMLAudioElement.volume := 1 |}. cbn.
  split; [reflexivity|]. split; [reflexivity|]. split; reflexivity.
Qed.

(** X12.  Whatever the user does to the slider and the mute button, the
    mute icon shows "muted" exactly when the element's volume is zero, and
    the value the slider displays is equal to the element's volume. *)
Theorem volume_controls_consistent (es : list AudioPlayer.Event) :
  let w := AudioPlayer.run es AudioPlayer.mounted in
  exists audio,
    AudioPlayer.audioRef w = Some audio
    /\ AudioPlayer.isMuted (AudioPlayer.ui w)
       = (AudioPlayer.HTMLAudioElement.volume audio =? 0)%float
    /\ (AudioPlayer.HTMLAudioElement.volume audio
        =? AudioPlayer.sliderValue (AudioPlayer.ui w))%float = true.
Proof.
  intros w.
  destruct (run_keeps_volumeInvariant es _ mounted_volumeInvariant)
    as (audio & Href & Hrange & Hmuted & Hsame).
  fold w in Href, Hrange, Hmuted, Hsame.
  exists audio. split; [exact Href|]. split; [exact Hmuted|].
  unfold AudioPlayer.sliderValue.
  destruct (AudioPlayer.isMuted (AudioPlayer.ui w)); [now rewrite <- Hmuted|].
  rewrite (Hsame eq_refl). apply in_unit_range_eqb_refl.
  now apply andb_prop in Hrange.
Qed.

(** X13.  Muting and unmuting brings the player back to exactly where it
    was; and after the slider has been dragged to zero (which mutes), the
    mute button brings the volume to 0.5, in the state and on the
    element. *)
Theorem unmute_restores_volume (es : list AudioPlayer.Event) :
  let w := AudioPlayer.run es AudioPlayer.mounted in
  (AudioPlayer.isMuted (AudioPlayer.ui w) = false ->
   AudioPlayer.toggleMute (AudioPlayer.toggleMute w) = w)
  /\ (let w' := AudioPlayer.toggleMute (AudioPlayer.handleVolumeChange 0 w) in
      AudioPlayer.volume (AudioPlayer.ui w') = 0.5%float
      /\ AudioPlayer.isMuted (AudioPlayer.ui w') = false
      /\ AudioPlayer.audioRef w' = Some {| AudioPlayer.HTMLAudioElement.volume := 0.5 |}).
Proof.
  intros w.
  destruct (run_keeps_volumeInvariant es _ mounted_volumeInvariant)
    as (audio & Href & Hrange & Hmuted & Hsame).
  fold w in Href, Hrange, Hmuted, Hsame. clearbody w.
  destruct w as [[v muted wf] ref]. cbn in *. subst ref. split.
  - intros ->. specialize (Hsame eq_refl). destruct audio as [av]. cbn in *. subst av.
    unfold AudioPlayer.toggleMute, AudioPlayer.HTMLAudioElement.setVolume. cbn.
    unfold AudioPlayer.orHalf, is_nan.
    assert (Hrefl : (v =? v)%float = true).
    { apply in_unit_range_eqb_refl. now apply andb_prop in Hrange. }
    rewrite <- Hmuted, Hrefl. cbn. rewrite Hrange. reflexivity.
  - unfold AudioPlayer.handleVolumeChange, AudioPlayer.toggleMute,
      AudioPlayer.HTMLAudioElement.setVolume. cbn. repeat split.
Qed.

Lemma unmute_restores_volume_witness :
  let w := AudioPlayer.run [AudioPlayer.drag_volume 0.25] AudioPlayer.mounted in
  AudioPlayer.isMuted (AudioPlayer.ui w) = false
  /\ AudioPlayer.toggleMute (AudioPlayer.toggleMute w) = w.
Proof.
  cbv zeta. split; [reflexivity|].
  exact (proj1 (unmute_restores_volume [AudioPlayer.drag_volume 0.25]) eq_refl).
Defined.

(** X14.  The waveform has exactly 50 bars, and every bar is at least 30%
    and less than 100% high. *)
Theorem waveform_bars (random : nat -> Q) (w : AudioPlayer.World) :
  (forall n, 0 <= random n < 1) ->
  let data := AudioPlayer.waveformData (AudioPlayer.ui (AudioPlayer.generateWaveform random w)) in
  List.length data = 50%nat
  /\ Forall (fun height => 30 <= height * 100 < 100) data.
Proof.
  intros Hr data. unfold data, AudioPlayer.generateWaveform.
  cbn [AudioPlayer.waveformData AudioPlayer.ui]. split.
  - now rewrite length_map, length_seq.
  - apply Forall_forall. intros h Hh. apply in_map_iff in Hh.
    destruct Hh as (i & <- & _). pose proof (Hr i). lra.
Qed.

Lemma waveform_bars_witness :
  (forall n, 0 <= Samples.draws n < 1)
  /\ List.length
       (AudioPlayer.waveformData
          (AudioPlayer.ui (AudioPlayer.generateWaveform Samples.draws AudioPlayer.mounted)))
     = 50%nat.
Proof.
  split; [exact draws_range|].
  exact (proj1 (waveform_bars Samples.draws AudioPlayer.mounted draws_range)).
Defined.

(* ------------------------------------------------------------------ *)
(** ** The recorder through its events *)

Lemma keeps_ret {S A} (inv : S -> Prop) (a : A) : keeps inv (ret a).
Proof. intros s H. exact H. Qed.

Lemma keeps_bind {S A B} (inv : S -> Prop) (m : M S A) (k : A -> M S B) :
  keeps inv m -> (forall a, keeps inv (k a)) -> keeps inv (bind m k).
Proof.
  intros Hm Hk s H. unfold bind. specialize (Hm s H).
  destruct (m s) as [a s']. cbn in Hm. exact (Hk a s' Hm).
Qed.

Lemma keeps_gets {P A} (inv : AudioRecorder.World P -> Prop)
      (f : AudioRecorder.World P -> A) :
  keeps inv (AudioRecorder.gets f).
Proof. intros s H. exact H. Qed.

(** Taking a handler apart into its primitive steps; [prim] settles those. *)
Ltac keeps_steps prim :=
  repeat first
    [ match goal with
      | H : forall x, keeps _ (?h x) |- keeps _ (?h _) => apply H
      end
    | apply keeps_ret
    | apply keeps_gets
    | apply keeps_bind; [|intros ?]
    | match goal with
      | |- keeps _ (match ?x with _ => _ end) => destruct x
      end
    | prim ].

Ltac time_prim :=
  solve [ intros w Hw; unfold recordingTimeInRange, AudioRecorder.MAX_RECORDING_TIME in *;
          cbn; first [exact Hw | lia] ].

Section RecorderTime.
Variable P : Type.
Variable onAudioRecorded : File.t -> nat -> P -> P.

Lemma stopRecording_keeps_time (rendered : bool) :
  keeps (@recordingTimeInRange P) (AudioRecorder.stopRecording rendered).
Proof.
  unfold AudioRecorder.stopRecording, AudioRecorder.recorderStop. keeps_steps time_prim.
Qed.

Lemma intervalCallback_keeps_time (rendered : bool) :
  keeps (@recordingTimeInRange P) (AudioRecorder.intervalCallback rendered).
Proof.
  intros w Hw. unfold AudioRecorder.intervalCallback, AudioRecorder.gets, bind at 1.
  cbn beta iota.
  destruct (Z.leb_spec AudioRecorder.MAX_RECORDING_TIME
              (AudioRecorder.recordingTime (AudioRecorder.ui w))) as [Hmax|Hlt].
  - unfold bind. pose proof (stopRecording_keeps_time rendered w Hw) as Hs.
    destruct (AudioRecorder.stopRecording rendered w) as [u w']. cbn in *.
    unfold recordingTimeInRange in *. cbn. exact Hw.
  - unfold recordingTimeInRange, AudioRecorder.MAX_RECORDING_TIME in *. cbn. lia.
Qed.

Lemma step_keeps_time (e : AudioRecorder.Event) :
  keeps (@recordingTimeInRange P) (AudioRecorder.step onAudioRecorded e).
Proof.
  pose proof stopRecording_keeps_time as Hstop.
  pose proof intervalCallback_keeps_time as Htick.
  destruct e; unfold AudioRecorder.step.
  - unfold AudioRecorder.checkMicrophonePermission, AudioRecorder.acquireStream.
    keeps_steps time_prim.
  - unfold AudioRecorder.onClickRecord, AudioRecorder.startRecording_start.
    keeps_steps time_prim.
  - unfold AudioRecorder.startRecording_resume, AudioRecorder.acquireStream,
      AudioRecorder.newMediaRecorder, AudioRecorder.setInterval.
    keeps_steps time_prim.
  - keeps_steps time_prim.
  - unfold AudioRecorder.ondataavailable. keeps_steps time_prim.
  - unfold AudioRecorder.onstop. keeps_steps time_prim.
  - unfold AudioRecorder.handleClear. keeps_steps time_prim.
  - unfold AudioRecorder.cleanup. keeps_steps time_prim.
Qed.

End RecorderTime.

(** X15.  In every state the recorder can reach from its mount, whatever
    the user and the browser do, the counter behind the clock is between 0
    and 300. *)
Theorem recordingTime_always_in_range (P : Type)
        (onAudioRecorded : File.t -> nat -> P -> P)
        (es : list AudioRecorder.Event) (p : P) :
  (0 <= AudioRecorder.recordingTime
          (AudioRecorder.ui (AudioRecorder.run onAudioRecorded es (AudioRecorder.mounted p)))
   <= 300)%Z.
Proof.
  assert (H0 : recordingTimeInRange (AudioRecorder.mounted p))
    by (unfold recordingTimeInRange, AudioRecorder.MAX_RECORDING_TIME; cbn; lia).
  revert H0. generalize (AudioRecorder.mounted p).
  induction es as [|e es IH]; intros w Hw; [exact Hw|].
  cbn. apply IH. exact (step_keeps_time P onAudioRecorded e w Hw).
Qed.

Ltac streams_prim :=
  solve [ intros w Hw; unfold streamsInv, streamsWellFormed in *; cbn; exact Hw ].

Section RecorderStreams.
Variable P : Type.
Variable onAudioRecorded : File.t -> nat -> P -> P.

Lemma acquireStream_keeps_streams : keeps (@streamsInv P) (AudioRecorder.acquireStream (P:=P)).
Proof.
  intros w Hw. unfold streamsInv, streamsWellFormed in *. cbn.
  constructor; [lia|]. eapply Forall_impl; [|exact Hw]. cbn. intros; lia.
Qed.

Lemma stopTracks_keeps_streams (s : nat) : keeps (@streamsInv P) (AudioRecorder.stopTracks s).
Proof.
  intros w Hw. unfold streamsInv, streamsWellFormed in *. cbn.
  apply Forall_forall. intros x Hx. apply filter_In in Hx. destruct Hx as [Hx _].
  rewrite Forall_forall in Hw. now apply Hw.
Qed.

Lemma stopRecording_keeps_streams (rendered : bool) :
  keeps (@streamsInv P) (AudioRecorder.stopRecording rendered).
Proof.
  unfold AudioRecorder.stopRecording, AudioRecorder.recorderStop. keeps_steps streams_prim.
Qed.

Lemma step_keeps_streams (e : AudioRecorder.Event) :
  keeps (@streamsInv P) (AudioRecorder.step onAudioRecorded e).
Proof.
  pose proof stopRecording_keeps_streams as Hstop.
  pose proof stopTracks_keeps_streams as Htracks.
  destruct e; unfold AudioRecorder.step.
  - unfold AudioRecorder.checkMicrophonePermission.
    keeps_steps ltac:(first [apply acquireStream_keeps_streams | streams_prim]).
  - unfold AudioRecorder.onClickRecord, AudioRecorder.startRecording_start.
    keeps_steps streams_prim.
  - unfold AudioRecorder.startRecording_resume,
      AudioRecorder.newMediaRecorder, AudioRecorder.setInterval.
    keeps_steps ltac:(first [apply acquireStream_keeps_streams | streams_prim]).
  - unfold AudioRecorder.intervalCallback. keeps_steps streams_prim.
  - unfold AudioRecorder.ondataavailable. keeps_steps streams_prim.
  - unfold AudioRecorder.onstop. keeps_steps streams_prim.
  - unfold AudioRecorder.handleClear. keeps_steps streams_prim.
  - unfold AudioRecorder.cleanup. keeps_steps streams_prim.
Qed.

Lemma reachable_streams (es : list AudioRecorder.Event) (p : P) :
  streamsWellFormed
    (AudioRecorder.browser (AudioRecorder.run onAudioRecorded es (AudioRecorder.mounted p))).
Proof.
  assert (H0 : streamsInv (AudioRecorder.mounted p)) by constructor.
  revert H0. generalize (AudioRecorder.mounted p).
  induction es as [|e es IH]; intros w Hw; [exact Hw|].
  cbn. apply IH. exact (step_keeps_streams e w Hw).
Qed.

End RecorderStreams.

Lemma release_fresh_stream (n : nat) (live : list nat) :
  Forall (fun s => (s < n)%nat) live ->
  filter (fun s' => negb (Nat.eqb s' n)) (n :: live) = live.
Proof.
  intros H. cbn. rewrite Nat.eqb_refl. cbn.
  induction H as [|s l Hs Hl IH]; cbn; [reflexivity|].
  destruct (Nat.eqb_spec s n); [lia|]. cbn. now rewrite IH.
Qed.

(** X16.  The permission probe, whenever it is answered: when granted, the
    record button is enabled, the error is cleared and the stream the probe
    obtained has been released, so the set of live streams is what it was;
    when denied, the denial message is shown and the record button does
    nothing when clicked. *)
Theorem permission_probe_outcome (P : Type) (onAudioRecorded : File.t -> nat -> P -> P)
        (es : list AudioRecorder.Event) (p : P) :
  let w := AudioRecorder.run onAudioRecorded es (AudioRecorder.mounted p) in
  let granted := snd (AudioRecorder.step onAudioRecorded (AudioRecorder.permission_settles true) w) in
  let denied := snd (AudioRecorder.step onAudioRecorded (AudioRecorder.permission_settles false) w) in
  (AudioRecorder.permissionGranted (AudioRecorder.ui granted) = true
   /\ AudioRecorder.error (AudioRecorder.ui granted) = None
   /\ AudioRecorder.liveStreams (AudioRecorder.browser granted)
      = AudioRecorder.liveStreams (AudioRecorder.browser w))
  /\ (AudioRecorder.permissionGranted (AudioRecorder.ui denied) = false
      /\ AudioRecorder.error (AudioRecorder.ui denied)
         = Some "Microphone access denied. Please allow microphone access to record audio."%string
      /\ AudioRecorder.browser denied = AudioRecorder.browser w
      /\ snd (AudioRecorder.step onAudioRecorded AudioRecorder.click_record denied) = denied).
Proof.
  intros w granted denied.
  pose proof (reachable_streams P onAudioRecorded es p) as Hwf. fold w in Hwf.
  clearbody w. subst granted denied.
  destruct w as [[rec time blob err perm] r b p0].
  destruct b as [ns live recs sq nt ivs pend urls].
  unfold streamsWellFormed in Hwf. cbn in Hwf.
  split.
  - cbv -[filter Nat.eqb negb]. repeat split.
    apply (release_fresh_stream ns live Hwf).
  - cbv. destruct blob; repeat split.
Qed.

Lemma lookupInterval_cleared (t : nat) (l : list (nat * bool)) :
  AudioRecorder.lookupInterval t (filter (fun e => negb (Nat.eqb (fst e) t)) l) = None.
Proof.
  induction l as [|[id r] l IH]; cbn; [reflexivity|].
  destruct (Nat.eqb_spec id t); cbn; [exact IH|].
  destruct (Nat.eqb_spec id t); [contradiction | exact IH].
Qed.

Lemma updateAt_nth_error {A : Type} (f : A -> A) (l : list A) (i : nat) (x : A) :
  nth_error l i = Some x ->
  nth_error (AudioRecorder.updateAt i f l) i = Some (f x).
Proof.
  revert i. induction l as [|a l IH]; intros [|i]; cbn; try discriminate.
  - now intros [= ->].
  - apply IH.
Qed.

(** X17.  An explicit stop, from any state in which a recording is running:
    after the click on "Stop Recording" and the recorder's [stop] event the
    component no longer shows a recording, the recorder is inactive, the
    timer is cleared, the stream of [streamRef] is released, and the parent
    has received exactly one artifact, named after the time of the [stop]
    event, of type audio/webm and of the total size of the buffered
    chunks. *)
Theorem explicit_stop_emits_artifact (P : Type)
        (onAudioRecorded : File.t -> nat -> P -> P)
        (w : AudioRecorder.World P) (now : Z) (r t s s0 : nat) :
  AudioRecorder.isRecording (AudioRecorder.ui w) = true ->
  AudioRecorder.audioBlob (AudioRecorder.ui w) = None ->
  AudioRecorder.permissionGranted (AudioRecorder.ui w) = true ->
  AudioRecorder.mediaRecorderRef (AudioRecorder.refs w) = Some r ->
  nth_error (AudioRecorder.recorders (AudioRecorder.browser w)) r
  = Some {| AudioRecorder.MediaRecorder.stream := s0;
            AudioRecorder.MediaRecorder.state := AudioRecorder.recording |} ->
  AudioRecorder.timerRef (AudioRecorder.refs w) = Some t ->
  AudioRecorder.streamRef (AudioRecorder.refs w) = Some s ->
  AudioRecorder.stopQueue (AudioRecorder.browser w) = [] ->
  let w' := AudioRecorder.run onAudioRecorded
              [AudioRecorder.click_record; AudioRecorder.stop_fires now] w in
  let blob := AudioRecorder.newBlob (AudioRecorder.chunksRef (AudioRecorder.refs w)) in
  let file := {| File.name := ("recording-" ++ toString now ++ ".webm")%string;
                 File.type := "audio/webm"%string;
                 File.size := Blob.size blob |} in
  AudioRecorder.isRecording (AudioRecorder.ui w') = false
  /\ AudioRecorder.audioBlob (AudioRecorder.ui w') = Some blob
  /\ AudioRecorder.parent w'
     = onAudioRecorded file (URL.next (AudioRecorder.urls (AudioRecorder.browser w)))
                       (AudioRecorder.parent w)
  /\ nth_error (AudioRecorder.recorders (AudioRecorder.browser w')) r
     = Some {| AudioRecorder.MediaRecorder.stream := s0;
               AudioRecorder.MediaRecorder.state := AudioRecorder.inactive |}
  /\ AudioRecorder.lookupInterval t (AudioRecorder.intervals (AudioRecorder.browser w')) = None
  /\ AudioRecorder.timerRef (AudioRecorder.refs w') = None
  /\ ~ In s (AudioRecorder.liveStreams (AudioRecorder.browser w'))
  /\ AudioRecorder.stopQueue (AudioRecorder.browser w') = [].
Proof.
  destruct w as [[rec time blob err perm] [mr chunks tr sr] b p].
  destruct b as [ns live recs sq nt ivs pend urls]. cbn.
  intros -> -> -> -> Hnth -> -> ->.
  cbv -[nth_error AudioRecorder.updateAt filter AudioRecorder.lookupInterval
        AudioRecorder.newBlob toString String.append app In].
  rewrite Hnth.
  cbv -[nth_error AudioRecorder.updateAt filter AudioRecorder.lookupInterval
        AudioRecorder.newBlob toString String.append In].
  repeat split.
  - exact (updateAt_nth_error _ recs r _ Hnth).
  - apply lookupInterval_cleared.
  - intros Hin. apply filter_In in Hin. destruct Hin as [_ Hne].
    now rewrite Nat.eqb_refl in Hne.
Qed.

Lemma explicit_stop_emits_artifact_witness :
  AudioRecorder.isRecording (AudioRecorder.ui Samples.recorderRecording) = true
  /\ AudioRecorder.parent
       (AudioRecorder.run Samples.logArtifact
          [AudioRecorder.click_record; AudioRecorder.stop_fires 1700000000000]
          Samples.recorderRecording)
     = [({| File.name := "recording-1700000000000.webm";
            File.type := "audio/webm"; File.size := 0 |}, 0%nat)].
Proof.
  split; [reflexivity|].
  exact (proj1 (proj2 (proj2
           (explicit_stop_emits_artifact _ Samples.logArtifact Samples.recorderRecording
              1700000000000 0 1 1 1 eq_refl eq_refl eq_refl eq_refl eq_refl eq_refl
              eq_refl eq_refl)))).
Defined.

Lemma newBlob_app (a b : list Blob.t) :
  Blob.size (AudioRecorder.newBlob (a ++ b))
  = (Blob.size (AudioRecorder.newBlob a) + Blob.size (AudioRecorder.newBlob b))%Z.
Proof.
  unfold AudioRecorder.newBlob. cbn [Blob.size].
  induction a as [|x a IH]; cbn; [reflexivity|]. rewrite IH. lia.
Qed.

Lemma dataavailable_chunks (P : Type) (onAudioRecorded : File.t -> nat -> P -> P)
      (datas : list Blob.t) (w : AudioRecorder.World P) :
  let w' := AudioRecorder.run onAudioRecorded (map AudioRecorder.dataavailable datas) w in
  AudioRecorder.chunksRef (AudioRecorder.refs w')
  = (AudioRecorder.chunksRef (AudioRecorder.refs w)
     ++ filter (fun d => (0 <? Blob.size d)%Z) datas)%list
  /\ AudioRecorder.ui w' = AudioRecorder.ui w
  /\ AudioRecorder.browser w' = AudioRecorder.browser w
  /\ AudioRecorder.parent w' = AudioRecorder.parent w.
Proof.
  revert w. induction datas as [|d datas IH]; intros w; cbn -[AudioRecorder.step].
  - rewrite app_nil_r. repeat split.
  - destruct (IH (snd (AudioRecorder.step onAudioRecorded (AudioRecorder.dataavailable d) w)))
      as (H1 & H2 & H3 & H4).
    rewrite H1, H2, H3, H4. clear IH H1 H2 H3 H4.
    cbn [AudioRecorder.step]. unfold AudioRecorder.ondataavailable.
    destruct (0 <? Blob.size d)%Z; cbn.
    + rewrite <- app_assoc. repeat split.
    + repeat split.
Qed.

(** X18.  The fragments the recorder delivers are buffered in the order of
    delivery, the empty ones left out, and nothing else changes; the blob
    built from the buffer has the total size of everything delivered. *)
Theorem chunks_buffer_what_is_delivered (P : Type)
        (onAudioRecorded : File.t -> nat -> P -> P)
        (datas : list Blob.t) (w : AudioRecorder.World P) :
  Forall (fun d => (0 <= Blob.size d)%Z) datas ->
  let w' := AudioRecorder.run onAudioRecorded (map AudioRecorder.dataavailable datas) w in
  AudioRecorder.chunksRef (AudioRecorder.refs w')
  = (AudioRecorder.chunksRef (AudioRecorder.refs w)
     ++ filter (fun d => (0 <? Blob.size d)%Z) datas)%list
  /\ Blob.size (AudioRecorder.newBlob (AudioRecorder.chunksRef (AudioRecorder.refs w')))
     = (Blob.size (AudioRecorder.newBlob (AudioRecorder.chunksRef (AudioRecorder.refs w)))
        + fold_right Z.add 0 (map Blob.size datas))%Z
  /\ AudioRecorder.ui w' = AudioRecorder.ui w
  /\ AudioRecorder.browser w' = AudioRecorder.browser w
  /\ AudioRecorder.parent w' = AudioRecorder.parent w.
Proof.
  intros Hsizes w'.
  destruct (dataavailable_chunks P onAudioRecorded datas w) as (H1 & H2 & H3 & H4).
  fold w' in H1, H2, H3, H4.
  split; [exact H1|]. split; [|repeat split; assumption].
  rewrite H1, newBlob_app. f_equal. clear -Hsizes.
  induction Hsizes as [|d datas Hd Hds IH]; [reflexivity|]. cbn [filter map fold_right].
  destruct (Z.ltb_spec 0 (Blob.size d)).
  - change (d :: filter (fun d0 => (0 <? Blob.size d0)%Z) datas)
      with ([d] ++ filter (fun d0 => (0 <? Blob.size d0)%Z) datas)%list.
    rewrite newBlob_app, IH. cbn. lia.
  - rewrite IH. lia.
Qed.

Lemma chunks_buffer_what_is_delivered_witness :
  Forall (fun d => (0 <= Blob.size d)%Z) Samples.fragments
  /\ map Blob.size
         (AudioRecorder.chunksRef
            (AudioRecorder.refs
               (AudioRecorder.run Samples.logArtifact
                  (map AudioRecorder.dataavailable Samples.fragments)
                  Samples.recorderRecording)))
     = [1600; 1500]%Z.
Proof.
  assert (H : Forall (fun d => (0 <= Blob.size d)%Z) Samples.fragments)
    by (repeat constructor; cbn; lia).
  split; [exact H|].
  exact (f_equal (map Blob.size)
           (proj1 (chunks_buffer_what_is_delivered _ Samples.logArtifact Samples.fragments
                     Samples.recorderRecording H))).
Defined.

(** X19.  A start whose microphone request is refused: the failure message
    is shown, the component is not recording, no stream, recorder or timer
    has been created, no artifact is emitted, and the button is ready to
    start again. *)
Theorem refused_start_leaves_idle (P : Type) (onAudioRecorded : File.t -> nat -> P -> P)
        (w : AudioRecorder.World P) :
  AudioRecorder.audioBlob (AudioRecorder.ui w) = None ->
  AudioRecorder.permissionGranted (AudioRecorder.ui w) = true ->
  AudioRecorder.isRecording (AudioRecorder.ui w) = false ->
  AudioRecorder.pendingUserMedia (AudioRecorder.browser w) = [] ->
  let w' := AudioRecorder.run onAudioRecorded
              [AudioRecorder.click_record; AudioRecorder.getUserMedia_settles false] w in
  AudioRecorder.error (AudioRecorder.ui w')
  = Some "Failed to start recording. Please check your microphone permissions."%string
  /\ AudioRecorder.isRecording (AudioRecorder.ui w') = false
  /\ AudioRecorder.audioBlob (AudioRecorder.ui w') = None
  /\ AudioRecorder.permissionGranted (AudioRecorder.ui w') = true
  /\ AudioRecorder.browser w' = AudioRecorder.browser w
  /\ AudioRecorder.mediaRecorderRef (AudioRecorder.refs w')
     = AudioRecorder.mediaRecorderRef (AudioRecorder.refs w)
  /\ AudioRecorder.timerRef (AudioRecorder.refs w')
     = AudioRecorder.timerRef (AudioRecorder.refs w)
  /\ AudioRecorder.streamRef (AudioRecorder.refs w')
     = AudioRecorder.streamRef (AudioRecorder.refs w)
  /\ AudioRecorder.parent w' = AudioRecorder.parent w.
Proof.
  destruct w as [[rec time blob err perm] [mr chunks tr sr] b p]. cbn.
  intros -> -> -> Hq.
  destruct b as [ns live recs sq nt ivs pend urls]. cbn in Hq. subst pend.
  cbv. repeat split.
Qed.

Lemma refused_start_leaves_idle_witness :
  AudioRecorder.isRecording (AudioRecorder.ui Samples.recorderReady) = false
  /\ AudioRecorder.browser
       (AudioRecorder.run Samples.logArtifact
          [AudioRecorder.click_record; AudioRecorder.getUserMedia_settles false]
          Samples.recorderReady)
     = AudioRecorder.browser Samples.recorderReady.
Proof.
  split; [reflexivity|].
  exact (proj1 (proj2 (proj2 (proj2 (proj2
           (refused_start_leaves_idle _ Samples.logArtifact Samples.recorderReady
              eq_refl eq_refl eq_refl eq_refl)))))).
Defined.

(** X20.  Unmounting the recorder stops the tracks of the stream in
    [streamRef] and clears nothing: whatever the state, the timers that
    run stay installed, the refs ([timerRef] among them) keep their values
    and the component state is as it was. *)
Theorem unmount_leaves_timer_running (P : Type) (onAudioRecorded : File.t -> nat -> P -> P)
        (w : AudioRecorder.World P) :
  let w' := snd (AudioRecorder.step onAudioRecorded AudioRecorder.unmount w) in
  AudioRecorder.intervals (AudioRecorder.browser w')
  = AudioRecorder.intervals (AudioRecorder.browser w)
  /\ AudioRecorder.refs w' = AudioRecorder.refs w
  /\ AudioRecorder.ui w' = AudioRecorder.ui w
  /\ AudioRecorder.liveStreams (AudioRecorder.browser w')
     = match AudioRecorder.streamRef (AudioRecorder.refs w) with
       | Some stream =>
           filter (fun s => negb (Nat.eqb s stream))
                  (AudioRecorder.liveStreams (AudioRecorder.browser w))
       | None => AudioRecorder.liveStreams (AudioRecorder.browser w)
       end.
Proof.
  destruct w as [u [mr chunks tr sr] b p].
  destruct b as [ns live recs sq nt ivs pend urls].
  destruct mr, sr; cbv; repeat split.
Qed.

(* ------------------------------------------------------------------ *)
(** ** From an accepted upload to the history *)

Lemma handleFile_notifies (P : Type) (onAudioSelected : File.t -> nat -> P -> P)
      (file : File.t) (ev : MediaEvent) (w : AudioUpload.World P) :
  fst (AudioUpload.validateFile file ev w) = true ->
  exists url,
    AudioUpload.parent (snd (AudioUpload.handleFile onAudioSelected file ev w))
    = onAudioSelected file url (AudioUpload.parent w).
Proof.
  intros Hv. destruct (validateFile_frame P file ev w) as (Hp & _).
  unfold AudioUpload.handleFile, bind.
  destruct (AudioUpload.validateFile file ev w) as [b w1]. cbn in Hv, Hp. subst b.
  unfold_upload. cbn. rewrite Hp. eexists. reflexivity.
Qed.

(** X21.  An upload that [validateFile] accepts, followed by "Analyze" and
    the timer: the call classifies the uploaded file; when it resolves the
    App shows a result whose first row is its primary entry, is no longer
    analysing, still holds the file, and the newest entry of the history
    carries the primary emotion and confidence of that result, the name of
    the uploaded file and the time of resolution. *)
Theorem accepted_upload_reaches_history (file : File.t) (ev : MediaEvent)
        (w : AudioUpload.World App.State) (random : nat -> Q) (now : Z) :
  fst (AudioUpload.validateFile file ev w) = true ->
  (forall n, 0 <= random n < 1) ->
  let selected :=
    AudioUpload.parent (snd (AudioUpload.handleFile App.handleAudioSelected file ev w)) in
  let started := App.handleAnalyze_start selected in
  let resolved := App.handleAnalyze_resume file random now (snd started) in
  fst started = Some file
  /\ App.isAnalyzing (snd started) = true
  /\ App.audioFile resolved = Some file
  /\ App.isAnalyzing resolved = false
  /\ exists result entry,
       App.result resolved = Some result
       /\ hd_error (EmotionResult.all result) = Some (EmotionResult.primary result)
       /\ hd_error (App.history resolved) = Some entry
       /\ EmotionPrediction.emotion entry = Score.emotion (EmotionResult.primary result)
       /\ EmotionPrediction.confidence entry
          = Score.confidence (EmotionResult.primary result)
       /\ EmotionPrediction.audioName entry = Some (File.name file)
       /\ EmotionPrediction.timestamp entry = now.
Proof.
  intros Hv Hr selected started resolved.
  destruct (handleFile_notifies App.State App.handleAudioSelected file ev w Hv)
    as (url & Hsel).
  fold selected in Hsel. subst resolved started. rewrite Hsel. cbn.
  repeat split.
  eexists. eexists. repeat split.
  exact (all_head random Hr).
Qed.

Lemma accepted_upload_reaches_history_witness :
  fst (AudioUpload.validateFile Samples.wavFile (loadedmetadata 180) Samples.uploadWorld) = true
  /\ (forall n, 0 <= Samples.draws n < 1)
  /\ fst (App.handleAnalyze_start
            (AudioUpload.parent
               (snd (AudioUpload.handleFile App.handleAudioSelected Samples.wavFile
                       (loadedmetadata 180) Samples.uploadWorld))))
     = Some Samples.wavFile.
Proof.
  assert (Hv : fst (AudioUpload.validateFile Samples.wavFile (loadedmetadata 180)
                      Samples.uploadWorld) = true) by reflexivity.
  split; [exact Hv|]. split; [exact draws_range|].
  exact (proj1 (accepted_upload_reaches_history Samples.wavFile (loadedmetadata 180)
                  Samples.uploadWorld Samples.draws 1700000002000 Hv draws_range)).
Defined.
